(** * An item registry and a per-player inventory ledger (src/index.js)

    A shallow embedding of [InventoryScript] (the item registry) and of the
    inventory methods installed on [mp.Player.prototype], followed by the
    properties of the specification that were checked against them.

    Modelling conventions.

    - JavaScript values that reach the code from callers (keys, names,
      amounts, indices, item data) are values of [jsval]; a finite number
      among them is an exact rational (the doubles are rationals, and only
      they can be passed).
    - The amount of a stack is a [number]: an integer, plus or minus
      infinity, or NaN.  JavaScript numbers are IEEE-754 doubles, so the sum
      and the difference the code computes are the exact result rounded to
      the nearest double, ties to the even significand, and infinite beyond
      the largest double ([round], [num_add]).  Up to 2^53 in magnitude
      every integer is a double and the arithmetic is exact.  [Fin z] is
      written for every integer [z]; the doubles among them are the ones
      [round] leaves alone ([is_double]), and every result of [num_add] is
      one.  The sign of zero and amounts with a fractional part are not
      represented.
    - A player's [_inventory] is a list of stack objects [{key, amount, data}]
      with a string key and such an amount (the shape [giveItem] creates),
      each a value of its own: an array in which one stack object occurs at
      two indices is not represented.  An array argument is a list of such
      stacks.
    - The registry object [_items] is a finite map of its own properties,
      with the two keys that JavaScript treats differently on a plain object
      written out (see [InventoryScript]).  A call that throws has the
      result [Throw].
    - [lodash.isequal] is an external dependency: the ledger is developed in
      a section over an arbitrary [isEqual], and the properties that need
      reflexivity or symmetry of it say so.  [deepEqual] is a concrete
      structural comparison used to run the model on examples only; it
      compares the properties of two objects in the order they are listed,
      where [lodash.isequal] ignores the order.
    - An [EventEmitter.emit] appends to the sequence of emitted events
      (listeners are outside the module).  [console.error] is not recorded.
    - The player object [this] is the [World] value threaded through the
      methods: its identity, its [_inventory] and the events emitted so far.
      An [onUse] function receives the player and may call its methods; here
      it is a function on [World].  The module never writes the [key] or
      the [data] of an existing stack, so [useItem] reads them before the
      function runs. *)

From Stdlib Require Import ZArith QArith Bool Lia.
From stdpp Require Import base option list strings gmap.

Local Close Scope Q_scope.
Local Open Scope Z_scope.
Set Warnings "-register-all".

(** ** JavaScript values *)

Inductive jsval : Type :=
| JUndefined
| JNull
| JBool (b : bool)
| JNum (q : Q)
| JNaN
| JInfinity (negative : bool)
| JStr (s : string)
| JArr (elems : list jsval)
| JObj (props : list (string * jsval)).

(** The number with integer value [n]. *)
Definition JInt (n : Z) : jsval := JNum (inject_Z n).

(** [Number.isInteger(v)]: [v] is a finite number without fractional part. *)
Definition Number_isInteger (v : jsval) : bool :=
  match v with
  | JNum q => Qnum q mod Z.pos (Qden q) =? 0
  | _ => false
  end.

(** The integer a number stands for; only read where [Number_isInteger]
    holds. *)
Definition integerValue (v : jsval) : Z :=
  match v with
  | JNum q => Qnum q / Z.pos (Qden q)
  | _ => 0
  end.

(** [v] is the number whose value is the integer [n]. *)
Definition number_is (v : jsval) (n : Z) : Prop :=
  exists q, v = JNum q /\ Qeq q (inject_Z n).

(** A structural comparison of values: numbers by value, arrays and objects
    component by component, the properties of an object in the order they
    are listed ([lodash.isequal] ignores that order; the examples below hold
    objects with a single property). *)
Fixpoint deepEqual (a b : jsval) {struct a} : bool :=
  match a, b with
  | JUndefined, JUndefined => true
  | JNull, JNull => true
  | JBool x, JBool y => Bool.eqb x y
  | JNum x, JNum y => Qeq_bool x y
  | JNaN, JNaN => true
  | JInfinity x, JInfinity y => Bool.eqb x y
  | JStr x, JStr y => String.eqb x y
  | JArr xs, JArr ys =>
      (fix elems (xs ys : list jsval) {struct xs} : bool :=
         match xs, ys with
         | [], [] => true
         | x :: xs', y :: ys' => deepEqual x y && elems xs' ys'
         | _, _ => false
         end) xs ys
  | JObj xs, JObj ys =>
      (fix props (xs ys : list (string * jsval)) {struct xs} : bool :=
         match xs, ys with
         | [], [] => true
         | (k, x) :: xs', (l, y) :: ys' =>
             String.eqb k l && deepEqual x y && props xs' ys'
         | _, _ => false
         end) xs ys
  | _, _ => false
  end.

(** Induction on values, through arrays and objects. *)
Section jsval_induction.

Variable P : jsval -> Prop.
Hypothesis P_undefined : P JUndefined.
Hypothesis P_null : P JNull.
Hypothesis P_bool : forall b, P (JBool b).
Hypothesis P_num : forall q, P (JNum q).
Hypothesis P_nan : P JNaN.
Hypothesis P_infinity : forall s, P (JInfinity s).
Hypothesis P_str : forall s, P (JStr s).
Hypothesis P_arr : forall elems, Forall P elems -> P (JArr elems).
Hypothesis P_obj :
  forall props, Forall (fun kv => P (snd kv)) props -> P (JObj props).

Fixpoint jsval_nested_ind (v : jsval) : P v :=
  match v with
  | JUndefined => P_undefined
  | JNull => P_null
  | JBool b => P_bool b
  | JNum q => P_num q
  | JNaN => P_nan
  | JInfinity s => P_infinity s
  | JStr s => P_str s
  | JArr elems =>
      P_arr elems
        ((fix all (l : list jsval) : Forall P l :=
            match l with
            | [] => List.Forall_nil P
            | x :: l' =>
                List.Forall_cons P x l' (jsval_nested_ind x) (all l')
            end) elems)
  | JObj props =>
      P_obj props
        ((fix all (l : list (string * jsval))
            : Forall (fun kv => P (snd kv)) l :=
            match l with
            | [] => List.Forall_nil _
            | kv :: l' =>
                List.Forall_cons _ kv l' (jsval_nested_ind (snd kv))
                  (all l')
            end) props)
  end.

End jsval_induction.

(** ** Numbers held by stacks *)

(** An integer-valued double, an infinity or NaN. *)
Inductive number : Type :=
| Fin (z : Z)
| PosInf
| NegInf
| NaN.

(** Up to [two53] in magnitude every integer is a double. *)
Definition two53 : Z := 9007199254740992.

(** The double nearest to the integer [a] above [two53]: [a] lies between
    two neighbouring multiples of [2 ^ e] whose quotients have 53 bits; the
    nearer one is taken, and the one with the even quotient when [a] is half
    way. *)
Definition round_magnitude (a : Z) : Z :=
  let e := Z.log2 a - 52 in
  let q := a / 2 ^ e in
  let r := a mod 2 ^ e in
  let m := if 2 * r <? 2 ^ e then q
           else if 2 ^ e <? 2 * r then q + 1
           else if Z.even q then q else q + 1 in
  m * 2 ^ e.

(** The double an exact integer result is rounded to: itself up to [two53],
    the nearest double beyond, an infinity from [2 ^ 1024] on. *)
Definition round (z : Z) : number :=
  if Z.abs z <=? two53 then Fin z
  else
    let v := round_magnitude (Z.abs z) in
    if 2 ^ 1024 <=? v then (if z <? 0 then NegInf else PosInf)
    else Fin (Z.sgn z * v).

(** The numbers that are doubles. *)
Definition is_double (a : number) : Prop :=
  match a with Fin z => round z = Fin z | _ => True end.

(** [a + b] *)
Definition num_add (a b : number) : number :=
  match a, b with
  | NaN, _ | _, NaN => NaN
  | Fin x, Fin y => round (x + y)
  | PosInf, NegInf | NegInf, PosInf => NaN
  | PosInf, _ | _, PosInf => PosInf
  | NegInf, _ | _, NegInf => NegInf
  end.

(** [- a] *)
Definition num_opp (a : number) : number :=
  match a with
  | Fin z => Fin (- z)
  | PosInf => NegInf
  | NegInf => PosInf
  | NaN => NaN
  end.

(** [a < b] *)
Definition num_ltb (a b : number) : bool :=
  match a, b with
  | NaN, _ | _, NaN => false
  | Fin x, Fin y => x <? y
  | PosInf, _ | _, NegInf => false
  | _, PosInf | NegInf, _ => true
  end.

(** [a <= b] *)
Definition num_leb (a b : number) : bool :=
  match a, b with
  | NaN, _ | _, NaN => false
  | Fin x, Fin y => x <=? y
  | NegInf, _ | _, PosInf => true
  | _, NegInf | PosInf, _ => false
  end.

Definition num_le (a b : number) : Prop := num_leb a b = true.

(** The integer a finite number stands for. *)
Definition value (a : number) : Z :=
  match a with Fin z => z | _ => 0 end.

(** ** Results of calls *)

Inductive error : Type := TypeError.

(** A call returns a value or throws. *)
Inductive completion (A : Type) : Type :=
| Return (a : A)
| Throw (e : error).

Arguments Return {A} a.
Arguments Throw {A} e.

(** ** Stacks, events and the player *)

Module Stack.
Record t : Type := mk { key : string; amount : number; data : jsval }.
End Stack.

Inductive Event : Type :=
| itemDefined (key name description : string)
| itemAdded (actor : nat) (key : string) (amount : Z) (data : jsval)
| itemUsed (actor : nat) (index : Z) (key : string) (data : jsval)
| itemRemoved (actor : nat) (index : Z) (key : string) (amount : Z)
    (data : jsval)
| itemRemovedCompletely (actor : nat) (key : string) (data : jsval)
| inventoryReplaced (actor : nat) (oldInventory newInventory : list Stack.t).

Record World : Type := mkWorld {
  actor : nat;
  _inventory : list Stack.t;
  emitted : list Event
}.

(** A method of the player: it returns a value and the player as the method
    leaves it. *)
Definition M (A : Type) : Type := World -> A * World.

Definition ret {A} (a : A) : M A := fun w => (a, w).

Definition bind {A B} (m : M A) (f : A -> M B) : M B :=
  fun w => let (a, w') := m w in f a w'.

Notation "'let*' x := m 'in' k" := (bind m (fun x => k))
  (at level 10, x name, m at level 100, k at level 200).
Notation "m >> k" := (bind m (fun _ => k))
  (at level 100, k at level 200, right associativity).

Definition this : M World := fun w => (w, w).

Definition set__inventory (l : list Stack.t) : M unit :=
  fun w => (tt, mkWorld (actor w) l (emitted w)).

(** [inventoryScript.emit(...)] *)
Definition emit (e : Event) : M unit :=
  fun w => (tt, mkWorld (actor w) (_inventory w) (emitted w ++ [e])).

(** ** The item registry *)

(** An [onUse] function receives (player, index, key, data); the player is
    the [World] it transforms. *)
Definition Hook : Type := Z -> string -> jsval -> World -> World.

Module ItemDef.
Record t : Type := mk {
  name : string;
  description : string;
  onUse : option Hook;
  nameFunc : option (jsval -> jsval);
  descFunc : option (jsval -> jsval)
}.
End ItemDef.

(** The object [_items] starts as the plain object [{}], whose prototype is
    [Object.prototype].  It is used as a map from keys to definitions, and
    JavaScript treats two keys differently from all the others:
    - [_items[key] = def] stores an own property, except that for the key
      ["__proto__"] it installs [def] as the prototype of [_items] and
      stores no own property;
    - the method [_items.hasOwnProperty] is looked up on [_items] itself, so
      an own property with the key ["hasOwnProperty"] (a definition, which
      is not a function) takes its place and the call throws a TypeError.
    [_items] holds the own properties; [_items_proto] the definition
    installed as prototype, if any. *)
Record InventoryScript : Type := mkScript {
  _items : gmap string ItemDef.t;
  _items_proto : option ItemDef.t
}.

(** [new InventoryScript()] *)
Definition newInventoryScript : InventoryScript := mkScript ∅ None.

(** The own property of [_items] with the given key, if there is one. *)
Definition own_property (self : InventoryScript) (key : string)
  : option ItemDef.t :=
  if decide (key = "__proto__") then None else _items self !! key.

(** [this._items.hasOwnProperty(key)] *)
Definition hasItem (self : InventoryScript) (key : string)
  : completion bool :=
  match own_property self "hasOwnProperty" with
  | Some _ => Throw TypeError
  | None => Return (bool_decide (is_Some (own_property self key)))
  end.

(** [this._items[key]], as far as the value is an item definition.  [None]
    stands for [undefined] and for every other value found on the prototype
    chain (members of [Object.prototype], fields of a definition installed
    as prototype); none of these is an object with an [onUse] function. *)
Definition getItem (self : InventoryScript) (key : string)
  : option ItemDef.t :=
  match own_property self key with
  | Some def => Some def
  | None => if decide (key = "__proto__") then _items_proto self else None
  end.

(** [this._items[key] = def] *)
Definition set_item (key : string) (def : ItemDef.t) (self : InventoryScript)
  : InventoryScript :=
  if decide (key = "__proto__") then mkScript (_items self) (Some def)
  else mkScript (<[key := def]> (_items self)) (_items_proto self).

(** [addItem] returns the stored definition ([None] for [null]) or throws,
    together with the registry and the emitted events as it leaves them. *)
Definition addItem (key name description : jsval) (onUse : option Hook)
    (nameFunc descFunc : option (jsval -> jsval))
    (self : InventoryScript) (log : list Event)
  : completion (option ItemDef.t) * InventoryScript * list Event :=
  match key with
  | JStr k =>
      if (String.length k <? 1)%nat then (Return None, self, log) else
      match name with
      | JStr n =>
          if (String.length n <? 1)%nat then (Return None, self, log) else
          match description with
          | JStr d =>
              match hasItem self k with
              | Throw e => (Throw e, self, log)
              | Return true => (Return None, self, log)
              | Return false =>
                  let self' :=
                    set_item k (ItemDef.mk n d onUse nameFunc descFunc) self
                  in
                  (Return (getItem self' k), self',
                   log ++ [itemDefined k n d])
              end
          | _ => (Return None, self, log)
          end
      | _ => (Return None, self, log)
      end
  | _ => (Return None, self, log)
  end.

Definition getItemName (self : InventoryScript) (key : string) (data : jsval)
  : completion jsval :=
  match hasItem self key with
  | Throw e => Throw e
  | Return true =>
      match getItem self key with
      | Some def =>
          match ItemDef.nameFunc def with
          | Some f => Return (f data)
          | None => Return (JStr (ItemDef.name def))
          end
      | None => Throw TypeError
      end
  | Return false => Return (JStr "Invalid Item")
  end.

Definition getItemDescription (self : InventoryScript) (key : string)
    (data : jsval) : completion jsval :=
  match hasItem self key with
  | Throw e => Throw e
  | Return true =>
      match getItem self key with
      | Some def =>
          match ItemDef.descFunc def with
          | Some f => Return (f data)
          | None => Return (JStr (ItemDef.description def))
          end
      | None => Throw TypeError
      end
  | Return false => Return (JStr "")
  end.

(** ** The inventory methods of a player *)

(** An argument that is tested with [Array.isArray]. *)
Inductive ArrayArg : Type :=
| IsArray (stacks : list Stack.t)
| NotArray (v : jsval).

(** [arr.findIndex(p)]: the first index whose element satisfies [p], -1 when
    there is none. *)
Definition findIndex {A} (p : A -> bool) (arr : list A) : Z :=
  match list_find (fun x => Is_true (p x)) arr with
  | Some (i, _) => Z.of_nat i
  | None => -1
  end.

(** [arr[i]] for an integer [i]: [None] is [undefined]. *)
Definition at_index {A} (arr : list A) (i : Z) : option A :=
  if 0 <=? i then arr !! Z.to_nat i else None.

Section Ledger.

(** [lodash.isequal] *)
Variable isEqual : jsval -> jsval -> bool.

(** The registry the player methods consult. *)
Variable inventoryScript : InventoryScript.

Definition getInventory : M (list Stack.t) :=
  fun w => (_inventory w, w).

Definition setInventory (newInventory : ArrayArg) : M bool :=
  match newInventory with
  | IsArray arr =>
      let* self := this in
      let oldInventory := _inventory self in
      set__inventory arr >>
      emit (inventoryReplaced (actor self) oldInventory arr) >>
      ret true
  | NotArray _ => ret false
  end.

Definition keyIs (itemKey : string) (i : Stack.t) : bool :=
  bool_decide (Stack.key i = itemKey).

Definition keyDataIs (itemKey : string) (data : jsval) (i : Stack.t)
  : bool :=
  bool_decide (Stack.key i = itemKey) && isEqual (Stack.data i) data.

Definition playerHasItem (itemKey : string) : M bool :=
  fun w => (negb (findIndex (keyIs itemKey) (_inventory w) =? -1), w).

Definition hasItemWithData (itemKey : string) (data : jsval) : M bool :=
  fun w =>
    (negb (findIndex (keyDataIs itemKey data) (_inventory w) =? -1), w).

Definition getItemIndex (itemKey : string) : M Z :=
  fun w => (findIndex (keyIs itemKey) (_inventory w), w).

Definition getItemIndexWithData (itemKey : string) (data : jsval) : M Z :=
  fun w => (findIndex (keyDataIs itemKey data) (_inventory w), w).

Definition getItemAmount (itemKey : string) : M number :=
  fun w =>
    (fold_left
       (fun total item =>
          num_add total
            (if keyIs itemKey item then Stack.amount item else Fin 0))
       (_inventory w) (Fin 0), w).

Definition getItemAmountWithData (itemKey : string) (data : jsval)
  : M number :=
  fun w =>
    (fold_left
       (fun total item =>
          num_add total
            (if keyDataIs itemKey data item then Stack.amount item
             else Fin 0))
       (_inventory w) (Fin 0), w).

Definition getTotalItemAmount : M number :=
  fun w =>
    (fold_left (fun total item => num_add total (Stack.amount item))
       (_inventory w) (Fin 0), w).

(** [this._inventory[itemIdx].amount += d], and [-=] for a negative [d]:
    the difference [a - n] of two doubles is the sum of [a] and [- n]. *)
Definition addAmount (d : Z) (i : Stack.t) : Stack.t :=
  Stack.mk (Stack.key i) (num_add (Stack.amount i) (Fin d)) (Stack.data i).

Definition giveItem (itemKey : string) (amount data : jsval)
  : M (completion bool) :=
  match hasItem inventoryScript itemKey with
  | Throw e => ret (Throw e)
  | Return registered =>
      if registered && Number_isInteger amount && (0 <? integerValue amount)
      then
        let* itemIdx := getItemIndexWithData itemKey data in
        let* self := this in
        (if negb (itemIdx =? -1) then
           set__inventory
             (alter (addAmount (integerValue amount)) (Z.to_nat itemIdx)
                (_inventory self))
         else
           set__inventory
             (_inventory self
                ++ [Stack.mk itemKey (Fin (integerValue amount)) data])) >>
        emit (itemAdded (actor self) itemKey (integerValue amount) data) >>
        ret (Return true)
      else ret (Return false)
  end.

(** What the [onUse] hook of the definition of [key], if any, does. *)
Definition run_onUse (index : Z) (key : string) (data : jsval) (w : World)
  : World :=
  match getItem inventoryScript key with
  | Some itemDef =>
      match ItemDef.onUse itemDef with
      | Some f => f index key data w
      | None => w
      end
  | None => w
  end.

Definition useItem (itemIdx : jsval) : M bool :=
  let* self := this in
  if Number_isInteger itemIdx then
    match at_index (_inventory self) (integerValue itemIdx) with
    | Some item =>
        (match getItem inventoryScript (Stack.key item) with
         | Some itemDef =>
             match ItemDef.onUse itemDef with
             | Some f =>
                 fun w =>
                   (tt, f (integerValue itemIdx) (Stack.key item)
                          (Stack.data item) w)
             | None => ret tt
             end
         | None => ret tt
         end) >>
        emit (itemUsed (actor self) (integerValue itemIdx)
                (Stack.key item) (Stack.data item)) >>
        ret true
    | None => ret false
    end
  else ret false.

(** [amount = 1] when the argument is left out. *)
Definition default_amount (amount : jsval) : jsval :=
  match amount with JUndefined => JInt 1 | _ => amount end.

Definition removeItem (itemIdx : jsval) (amount0 : jsval) : M bool :=
  let amount := default_amount amount0 in
  let* self := this in
  if Number_isInteger itemIdx then
    match at_index (_inventory self) (integerValue itemIdx) with
    | Some item =>
        if Number_isInteger amount && (0 <? integerValue amount) then
          let idx := Z.to_nat (integerValue itemIdx) in
          let arr :=
            alter (addAmount (- integerValue amount)) idx
              (_inventory self) in
          set__inventory arr >>
          emit (itemRemoved (actor self) (integerValue itemIdx)
                  (Stack.key item) (integerValue amount)
                  (Stack.data item)) >>
          (match arr !! idx with
           | Some cur =>
               if num_ltb (Stack.amount cur) (Fin 1) then
                 set__inventory (delete idx arr) >>
                 emit (itemRemovedCompletely (actor self)
                         (Stack.key item) (Stack.data item))
               else ret tt
           | None => ret tt
           end) >>
          ret true
        else ret false
    | None => ret false
    end
  else ret false.

End Ledger.

(** ** Sequences of calls and properties of inventories *)

(** Every stack holds at least one unit. *)
Definition amounts_positive (arr : list Stack.t) : Prop :=
  forall s, s ∈ arr -> num_le (Fin 1) (Stack.amount s).

(** The magnitude of the amount of a stack. *)
Definition magnitude (s : Stack.t) : Z := Z.abs (value (Stack.amount s)).

(** The amounts of the stacks are integers whose magnitudes, added to
    [extra], stay within [two53]: no sum the methods form of them and of
    [extra] is rounded. *)
Definition within_safe_range (arr : list Stack.t) (extra : Z) : Prop :=
  (forall s, s ∈ arr -> exists z, Stack.amount s = Fin z) /\
  extra + fold_left (fun total item => total + magnitude item) arr 0
    <= two53.

Definition key_data (s : Stack.t) : string * jsval :=
  (Stack.key s, Stack.data s).

(** No two stacks have the same key and equal data. *)
Definition unique_stacks (isEqual : jsval -> jsval -> bool)
    (arr : list Stack.t) : Prop :=
  forall i j si sj,
    i <> j -> arr !! i = Some si -> arr !! j = Some sj ->
    ~ (Stack.key si = Stack.key sj /\
       isEqual (Stack.data si) (Stack.data sj) = true).

(** A call of one of the methods that change a player. *)
Inductive Call : Type :=
| CallGiveItem (itemKey : string) (amount data : jsval)
| CallUseItem (itemIdx : jsval)
| CallRemoveItem (itemIdx amount : jsval)
| CallSetInventory (newInventory : ArrayArg).

Definition call (isEqual : jsval -> jsval -> bool)
    (inventoryScript : InventoryScript) (c : Call) : M (completion bool) :=
  match c with
  | CallGiveItem itemKey amount data =>
      giveItem isEqual inventoryScript itemKey amount data
  | CallUseItem itemIdx =>
      let* r := useItem inventoryScript itemIdx in ret (Return r)
  | CallRemoveItem itemIdx amount =>
      let* r := removeItem itemIdx amount in ret (Return r)
  | CallSetInventory newInventory =>
      let* r := setInventory newInventory in ret (Return r)
  end.

(** The player after a sequence of calls, the results being dropped. *)
Definition run (isEqual : jsval -> jsval -> bool)
    (inventoryScript : InventoryScript) (calls : list Call) (w : World)
  : World :=
  fold_left (fun w c => snd (call isEqual inventoryScript c w)) calls w.

(** [playerJoin]: the player starts with the empty inventory. *)
Definition playerJoin (actor : nat) (log : list Event) : World :=
  mkWorld actor [] log.

(** An array handed to [setInventory] holds stacks of at least one unit. *)
Definition positive_argument (c : Call) : Prop :=
  match c with
  | CallSetInventory (IsArray arr) => amounts_positive arr
  | _ => True
  end.

(** Every registered [onUse] function keeps the property [P] of the
    inventory. *)
Definition hooks_preserve (P : list Stack.t -> Prop)
    (inventoryScript : InventoryScript) : Prop :=
  forall key def f,
    getItem inventoryScript key = Some def ->
    ItemDef.onUse def = Some f ->
    forall index key' data w,
      P (_inventory w) -> P (_inventory (f index key' data w)).

(** ** A small registry and a small inventory to run the model on *)

(** An [onUse] function that removes one unit of the stack that was used. *)
Definition consume : Hook :=
  fun index _ _ w => snd (removeItem (JInt index) (JInt 1) w).

(** The registry after [addItem("item_medkit", "Medkit", "Heals 10 HP",
    consume)]. *)
Definition medkit_registry : InventoryScript :=
  snd (fst (addItem (JStr "item_medkit") (JStr "Medkit") (JStr "Heals 10 HP")
              (Some consume) None None newInventoryScript [])).

(** The same registry after [addItem("hasOwnProperty", "Helper", "")]. *)
Definition shadowed_registry : InventoryScript :=
  snd (fst (addItem (JStr "hasOwnProperty") (JStr "Helper") (JStr "")
              None None None medkit_registry [])).

Definition plain_medkits : Stack.t :=
  Stack.mk "item_medkit" (Fin 2) JUndefined.

Definition strong_medkits : Stack.t :=
  Stack.mk "item_medkit" (Fin 3) (JObj [("hp", JInt 30)]).

Definition unknown_item : Stack.t := Stack.mk "item_unknown" (Fin 1) JNull.


Definition two_stacks : World :=
  mkWorld 7 [plain_medkits; strong_medkits] [].

(** ** Vocabulary of the further properties *)

(** The units that leave the inventory when [n] units are removed from the
    stack [s]: the stack goes as a whole once fewer than one unit would be
    left. *)
Definition removed_units (s : Stack.t) (n : Z) : Z :=
  if value (Stack.amount s) - n <? 1 then value (Stack.amount s) else n.

(** An array handed to [setInventory] has no two stacks with the same key
    and equal data. *)
Definition unique_argument (isEqual : jsval -> jsval -> bool) (c : Call)
  : Prop :=
  match c with
  | CallSetInventory (IsArray arr) => unique_stacks isEqual arr
  | _ => True
  end.

(** The arguments of one [addItem] call. *)
Record Registration : Type := mkRegistration {
  reg_key : jsval;
  reg_name : jsval;
  reg_description : jsval;
  reg_onUse : option Hook;
  reg_nameFunc : option (jsval -> jsval);
  reg_descFunc : option (jsval -> jsval)
}.

(** One [addItem] call on the registry and the emitted events; the returned
    value is dropped. *)
Definition register (r : Registration)
    (state : InventoryScript * list Event) : InventoryScript * list Event :=
  let '(_, self', log') :=
    addItem (reg_key r) (reg_name r) (reg_description r) (reg_onUse r)
      (reg_nameFunc r) (reg_descFunc r) (fst state) (snd state) in
  (self', log').

(** A sequence of [addItem] calls. *)
Definition register_all (rs : list Registration)
    (state : InventoryScript * list Event) : InventoryScript * list Event :=
  fold_left (fun st r => register r st) rs state.

(** Every own definition of the registry sits under a non-empty key and has
    a non-empty name. *)
Definition named_definitions (self : InventoryScript) : Prop :=
  forall key def,
    own_property self key = Some def ->
    key <> "" /\ ItemDef.name def <> "".

(** The [itemDefined] events of a log, as (key, name, description). *)
Definition defined_items (log : list Event)
  : list (string * string * string) :=
  omap (fun e =>
          match e with
          | itemDefined k n d => Some (k, n, d)
          | _ => None
          end) log.

(** * Properties *)

(** ** Numbers *)

Lemma number_is_spec v n :
  number_is v n <-> Number_isInteger v = true /\ integerValue v = n.
Proof.
  split.
  - intros (q & -> & Hq). unfold Qeq in Hq. simpl in *.
    rewrite Z.mul_1_r in Hq. rewrite Hq.
    split.
    + apply Z.eqb_eq. apply Z_mod_mult.
    + apply Z_div_mult. lia.
  - intros [Hi Hv]. destruct v; try discriminate.
    exists q. split; [reflexivity|].
    simpl in *. apply Z.eqb_eq in Hi.
    unfold Qeq. simpl. rewrite Z.mul_1_r.
    pose proof (Z_div_mod_eq_full (Qnum q) (Z.pos (Qden q))) as E.
    rewrite Hi, Hv in E. lia.
Qed.

Lemma number_is_JInt n : number_is (JInt n) n.
Proof. exists (inject_Z n). split; reflexivity. Qed.

Lemma number_is_inj v n m : number_is v n -> number_is v m -> n = m.
Proof.
  intros Hn Hm. apply number_is_spec in Hn, Hm.
  destruct Hn as [_ <-], Hm as [_ <-]. reflexivity.
Qed.

(** ** Rounding *)

Lemma round_magnitude_bounds a :
  two53 < a ->
  let e := Z.log2 a - 52 in
  1 <= e /\ 2 ^ 52 * 2 ^ e <= round_magnitude a <= 2 ^ 53 * 2 ^ e /\
  2 ^ 52 * 2 ^ e <= a < 2 ^ 53 * 2 ^ e.
Proof.
  intros Ha e.
  assert (Hlog : 53 <= Z.log2 a).
  { apply Z.log2_le_pow2; [unfold two53 in Ha; lia|]. unfold two53 in Ha. 
    change (2^53) with 9007199254740992. lia. }
  assert (He : 1 <= e) by (unfold e; lia).
  assert (Hpos : 0 < 2 ^ e) by (apply Z.pow_pos_nonneg; lia).
  destruct (Z.log2_spec a) as [Hlo Hhi]; [unfold two53 in Ha; lia|].
  assert (Hsplit : Z.log2 a = 52 + e) by (unfold e; lia).
  rewrite Hsplit in Hlo. rewrite Z.pow_add_r in Hlo by lia.
  replace (Z.succ (Z.log2 a)) with (53 + e) in Hhi by lia.
  rewrite Z.pow_add_r in Hhi by lia.
  split; [exact He|]. split; [|lia].
  unfold round_magnitude. fold e.
  pose proof (Z.div_mod a (2 ^ e) ltac:(lia)) as Hdm.
  pose proof (Z.mod_pos_bound a (2 ^ e) Hpos) as Hr.
  set (q := a / 2 ^ e) in *. set (r := a mod 2 ^ e) in *.
  assert (Hq : 2 ^ 52 <= q < 2 ^ 53).
  { split.
    - apply Z.div_le_lower_bound; lia.
    - apply Z.div_lt_upper_bound; lia. }
  destruct (2 * r <? 2 ^ e); [nia|].
  destruct (2 ^ e <? 2 * r); [nia|].
  destruct (Z.even q); nia.
Qed.

(** The result is a nearest multiple of [2 ^ e]: it is at most half a step
    away. *)
Lemma round_magnitude_nearest a :
  two53 < a ->
  2 * Z.abs (round_magnitude a - a) <= 2 ^ (Z.log2 a - 52).
Proof.
  intros Ha.
  pose proof (round_magnitude_bounds a Ha) as (He & _ & _). cbv zeta in He.
  unfold round_magnitude.
  set (e := Z.log2 a - 52) in *.
  assert (Hpos : 0 < 2 ^ e) by (apply Z.pow_pos_nonneg; lia).
  pose proof (Z.div_mod a (2 ^ e) ltac:(lia)) as Hd.
  pose proof (Z.mod_pos_bound a (2 ^ e) Hpos) as Hr.
  set (q := a / 2 ^ e) in *. set (r := a mod 2 ^ e) in *.
  destruct (2 * r <? 2 ^ e) eqn:E1;
    [apply Z.ltb_lt in E1; nia | apply Z.ltb_ge in E1].
  destruct (2 ^ e <? 2 * r) eqn:E2;
    [apply Z.ltb_lt in E2; nia | apply Z.ltb_ge in E2].
  destruct (Z.even q); nia.
Qed.

Lemma round_magnitude_mono a b :
  two53 < a -> a <= b -> round_magnitude a <= round_magnitude b.
Proof.
  intros Ha Hab.
  assert (Hb : two53 < b) by lia.
  pose proof (round_magnitude_bounds a Ha) as (Hea & Hma & Hra).
  pose proof (round_magnitude_bounds b Hb) as (Heb & Hmb & Hrb).
  cbv zeta in *.
  assert (Hle : Z.log2 a <= Z.log2 b) by (apply Z.log2_le_mono; lia).
  destruct (Z.eq_dec (Z.log2 a) (Z.log2 b)) as [Heq|Hne].
  - unfold round_magnitude. rewrite <- Heq.
    set (e := Z.log2 a - 52) in *.
    assert (Hpos : 0 < 2 ^ e) by (apply Z.pow_pos_nonneg; lia).
    pose proof (Z.div_mod a (2 ^ e) ltac:(lia)) as Hda.
    pose proof (Z.mod_pos_bound a (2 ^ e) Hpos) as Hra'.
    pose proof (Z.div_mod b (2 ^ e) ltac:(lia)) as Hdb.
    pose proof (Z.mod_pos_bound b (2 ^ e) Hpos) as Hrb'.
    set (qa := a / 2 ^ e) in *. set (ra := a mod 2 ^ e) in *.
    set (qb := b / 2 ^ e) in *. set (rb := b mod 2 ^ e) in *.
    assert (Hq : qa <= qb) by (apply Z.div_le_mono; lia).
    apply Z.mul_le_mono_nonneg_r; [lia|].
    destruct (Z.eq_dec qa qb) as [Hqq|Hqne].
    + rewrite <- Hqq in *. assert (ra <= rb) by nia.
      destruct (2 * ra <? 2 ^ e) eqn:E1, (2 * rb <? 2 ^ e) eqn:E2;
        try (apply Z.ltb_lt in E1); try (apply Z.ltb_lt in E2);
        try (apply Z.ltb_ge in E1); try (apply Z.ltb_ge in E2);
        try lia;
        destruct (2 ^ e <? 2 * ra) eqn:E3, (2 ^ e <? 2 * rb) eqn:E4;
        try (apply Z.ltb_lt in E3); try (apply Z.ltb_lt in E4);
        try (apply Z.ltb_ge in E3); try (apply Z.ltb_ge in E4);
        try lia; destruct (Z.even qa); lia.
    + assert (qa + 1 <= qb) by lia.
      assert ((if 2 * ra <? 2 ^ e then qa
               else if 2 ^ e <? 2 * ra then qa + 1
               else if Z.even qa then qa else qa + 1) <= qa + 1).
      { destruct (2 * ra <? 2 ^ e); [lia|].
        destruct (2 ^ e <? 2 * ra); [lia|]. destruct (Z.even qa); lia. }
      assert (qb <= (if 2 * rb <? 2 ^ e then qb
               else if 2 ^ e <? 2 * rb then qb + 1
               else if Z.even qb then qb else qb + 1)).
      { destruct (2 * rb <? 2 ^ e); [lia|].
        destruct (2 ^ e <? 2 * rb); [lia|]. destruct (Z.even qb); lia. }
      lia.
  - assert (Hlt : Z.log2 a - 52 + 1 <= Z.log2 b - 52) by lia.
    assert (2 ^ 53 * 2 ^ (Z.log2 a - 52) <= 2 ^ 52 * 2 ^ (Z.log2 b - 52)).
    { replace (2 ^ 53) with (2 ^ 52 * 2 ^ 1) by reflexivity.
      rewrite <- Z.mul_assoc, <- Z.pow_add_r by lia.
      apply Z.mul_le_mono_nonneg_l; [lia|].
      apply Z.pow_le_mono_r; lia. }
    lia.
Qed.

Lemma round_opp z : round (- z) = num_opp (round z).
Proof.
  unfold round. rewrite Z.abs_opp.
  destruct (Z.abs z <=? two53) eqn:E; [reflexivity|].
  apply Z.leb_gt in E.
  destruct (2 ^ 1024 <=? round_magnitude (Z.abs z)).
  - destruct (Z.ltb_spec (- z) 0), (Z.ltb_spec z 0); try reflexivity;
      unfold two53 in E; lia.
  - simpl. f_equal. rewrite Z.sgn_opp. lia.
Qed.

Lemma round_pos z :
  two53 < z ->
  round z = (if 2 ^ 1024 <=? round_magnitude z then PosInf
             else Fin (round_magnitude z)) /\ two53 <= round_magnitude z.
Proof.
  intros Hz. unfold round.
  assert (Habs : Z.abs z = z) by (unfold two53 in Hz; lia).
  rewrite Habs.
  assert ((z <=? two53) = false) as -> by (apply Z.leb_gt; lia).
  assert ((z <? 0) = false) as -> by (apply Z.ltb_ge; unfold two53 in Hz; lia).
  assert (Z.sgn z = 1) as -> by (unfold two53 in Hz; lia).
  rewrite Z.mul_1_l. split; [reflexivity|].
  pose proof (round_magnitude_bounds z Hz) as (He & Hm & _). cbv zeta in *.
  assert (2 ^ 1 <= 2 ^ (Z.log2 z - 52)) by (apply Z.pow_le_mono_r; lia).
  unfold two53. change (2 ^ 1) with 2 in *. change (2 ^ 52) with 4503599627370496 in *.
  lia.
Qed.

Lemma round_mono a b : a <= b -> num_leb (round a) (round b) = true.
Proof.
  assert (Hpos : forall a b, 0 <= a -> a <= b ->
            num_leb (round a) (round b) = true).
  { clear. intros a b Ha Hab.
    destruct (Z.le_gt_cases a two53) as [Has|Hal].
    - assert (round a = Fin a) as ->.
      { unfold round. assert ((Z.abs a <=? two53) = true) as ->; [|reflexivity].
        apply Z.leb_le. lia. }
      destruct (Z.le_gt_cases b two53) as [Hbs|Hbl].
      + assert (round b = Fin b) as ->.
        { unfold round.
          assert ((Z.abs b <=? two53) = true) as ->; [|reflexivity].
          apply Z.leb_le. lia. }
        simpl. apply Z.leb_le. lia.
      + destruct (round_pos b Hbl) as [-> Hge].
        destruct (2 ^ 1024 <=? round_magnitude b); simpl; [reflexivity|].
        apply Z.leb_le. lia.
    - destruct (round_pos a Hal) as [-> _].
      assert (Hbl : two53 < b) by lia.
      destruct (round_pos b Hbl) as [-> _].
      pose proof (round_magnitude_mono a b Hal Hab) as Hm.
      destruct (2 ^ 1024 <=? round_magnitude a) eqn:E1,
               (2 ^ 1024 <=? round_magnitude b) eqn:E2; simpl;
        try reflexivity.
      + apply Z.leb_le in E1. apply Z.leb_gt in E2. lia.
      + apply Z.leb_le. lia. }
  assert (Hopp : forall x y, num_leb x y = num_leb (num_opp y) (num_opp x)).
  { clear. intros [x| | |] [y| | |]; simpl; try reflexivity.
    destruct (Z.leb_spec x y), (Z.leb_spec (- y) (- x)); try reflexivity; lia. }
  intros Hab.
  destruct (Z.le_gt_cases 0 a) as [Ha|Ha].
  - apply Hpos; assumption.
  - destruct (Z.le_gt_cases 0 b) as [Hb|Hb].
    +       assert (H1 : num_leb (round a) (round 0) = true).
      { rewrite Hopp. rewrite <- !round_opp. apply Hpos; lia. }
      assert (H2 : num_leb (round 0) (round b) = true) by (apply Hpos; lia).
      change (round 0) with (Fin 0) in *.
      destruct (round a) as [x| | |], (round b) as [y| | |]; simpl in *;
        try reflexivity; try discriminate.
      apply Z.leb_le in H1, H2. apply Z.leb_le. lia.
    + rewrite Hopp, <- !round_opp. apply Hpos; lia.
Qed.

Lemma round_small z : Z.abs z <= two53 -> round z = Fin z.
Proof.
  intros H. unfold round.
  assert ((Z.abs z <=? two53) = true) as -> by (apply Z.leb_le; exact H).
  reflexivity.
Qed.

Lemma round_magnitude_fixed m e :
  2 ^ 52 <= m <= 2 ^ 53 -> 0 <= e ->
  round_magnitude (m * 2 ^ e) = m * 2 ^ e.
Proof.
  intros Hm He.
  assert (Hp : 0 < 2 ^ e) by (apply Z.pow_pos_nonneg; lia).
  destruct (Z.eq_dec m (2 ^ 53)) as [->|Hne].
  - unfold round_magnitude.
    rewrite <- Z.pow_add_r by lia.
    rewrite Z.log2_pow2 by lia.
    replace (53 + e - 52) with (e + 1) by lia.
    replace (2 ^ (53 + e)) with (2 ^ 52 * 2 ^ (e + 1))
      by (rewrite <- Z.pow_add_r by lia; f_equal; lia).
    assert (0 < 2 ^ (e + 1)) by (apply Z.pow_pos_nonneg; lia).
    rewrite Z.div_mul, Z.mod_mul by lia.
    assert ((2 * 0 <? 2 ^ (e + 1)) = true) as -> by (apply Z.ltb_lt; lia).
    reflexivity.
  - unfold round_magnitude.
    assert (Hlog : Z.log2 m = 52).
    { apply Z.log2_unique; [lia|]. change (2 ^ Z.succ 52) with (2 ^ 53). lia. }
    rewrite Z.log2_mul_pow2 by lia. rewrite Hlog.
    replace (e + 52 - 52) with e by lia.
    rewrite Z.div_mul, Z.mod_mul by lia.
    assert ((2 * 0 <? 2 ^ e) = true) as -> by (apply Z.ltb_lt; lia).
    reflexivity.
Qed.

Lemma round_magnitude_shape a :
  two53 < a ->
  exists m e, 2 ^ 52 <= m <= 2 ^ 53 /\ 1 <= e /\ round_magnitude a = m * 2 ^ e.
Proof.
  intros Ha.
  pose proof (round_magnitude_bounds a Ha) as (He & Hm & Hr). cbv zeta in *.
  unfold round_magnitude in *.
  set (e := Z.log2 a - 52) in *.
  assert (Hp : 0 < 2 ^ e) by (apply Z.pow_pos_nonneg; lia).
  eexists _, e. split; [|split; [exact He | reflexivity]].
  nia.
Qed.

Lemma round_is_double z : is_double (round z).
Proof.
  assert (Hpos : forall z, 0 <= z -> is_double (round z)).
  { clear. intros z Hz.
    destruct (Z.le_gt_cases z two53) as [Hs|Hl].
    - rewrite round_small by lia. simpl. apply round_small. lia.
    - destruct (round_pos z Hl) as [-> Hge].
      destruct (2 ^ 1024 <=? round_magnitude z) eqn:E; [exact I|].
      apply Z.leb_gt in E. simpl.
      destruct (Z.eq_dec (round_magnitude z) two53) as [->|Hne];
        [reflexivity|].
      assert (Hl' : two53 < round_magnitude z) by lia.
      destruct (round_pos _ Hl') as [-> _].
      destruct (round_magnitude_shape z Hl) as (m & e & Hm & He & Heq).
      rewrite Heq in *.
      rewrite round_magnitude_fixed by lia.
      assert ((2 ^ 1024 <=? m * 2 ^ e) = false) as ->
        by (apply Z.leb_gt; exact E).
      reflexivity. }
  destruct (Z.le_gt_cases 0 z) as [Hz|Hz]; [apply Hpos; exact Hz|].
  replace z with (- - z) by lia. rewrite round_opp.
  specialize (Hpos (- z) ltac:(lia)).
  destruct (round (- z)) as [x| | |]; simpl in *; try exact I.
  rewrite round_opp, Hpos. reflexivity.
Qed.

(** Rounding at work: 2^53 + 1 lies half way between two doubles and goes
    to the even one, as 2^53 + 3 does; the largest double is 2^1024 - 2^971,
    and from half a step above it on the result is infinite. *)
Lemma round_examples :
  round (two53 + 1) = Fin two53 /\
  round (two53 + 2) = Fin (two53 + 2) /\
  round (two53 + 3) = Fin (two53 + 4) /\
  round (- two53 - 1) = Fin (- two53) /\
  round (2 ^ 1024 - 2 ^ 971) = Fin (2 ^ 1024 - 2 ^ 971) /\
  round (2 ^ 1024 - 2 ^ 970 - 1) = Fin (2 ^ 1024 - 2 ^ 971) /\
  round (2 ^ 1024 - 2 ^ 970) = PosInf /\
  num_add (Fin (2 ^ 1023)) (Fin (2 ^ 1023)) = PosInf /\
  num_add PosInf (Fin (- 1)) = PosInf.
Proof. repeat split; vm_compute; reflexivity. Qed.

Lemma num_le_Fin x y : num_le (Fin x) (Fin y) <-> x <= y.
Proof. unfold num_le. simpl. apply Z.leb_le. Qed.

Lemma num_le_refl a : a <> NaN -> num_le a a.
Proof.
  destruct a; intros H; try reflexivity; [|contradiction].
  apply num_le_Fin. lia.
Qed.

Lemma num_le_trans a b c : num_le a b -> num_le b c -> num_le a c.
Proof.
  unfold num_le.
  destruct a as [x| | |], b as [y| | |], c as [z| | |]; simpl;
    try reflexivity; try discriminate.
  rewrite !Z.leb_le. lia.
Qed.

Lemma num_le_not_NaN a b : num_le a b -> a <> NaN /\ b <> NaN.
Proof.
  unfold num_le. destruct a, b; simpl; try discriminate;
    intros _; split; discriminate.
Qed.

Lemma num_add_is_double a b : is_double (num_add a b).
Proof. destruct a, b; simpl; try exact I. apply round_is_double. Qed.

Lemma num_add_0_r a : is_double a -> num_add a (Fin 0) = a.
Proof.
  destruct a; simpl; try reflexivity. rewrite Z.add_0_r. intros H. exact H.
Qed.

Lemma num_add_0_l a : is_double a -> num_add (Fin 0) a = a.
Proof. destruct a; simpl; try reflexivity. intros H. exact H. Qed.

Lemma num_add_Fin x y :
  Z.abs (x + y) <= two53 -> num_add (Fin x) (Fin y) = Fin (x + y).
Proof. apply round_small. Qed.

(** Rounding keeps the order, so adding does for numbers from 0 on. *)
Lemma num_add_mono a a' b b' :
  num_le (Fin 0) a -> num_le a a' -> num_le (Fin 0) b -> num_le b b' ->
  num_le (num_add a b) (num_add a' b').
Proof.
  unfold num_le.
  destruct a as [x| | |], a' as [x'| | |], b as [y| | |], b' as [y'| | |];
    simpl; try reflexivity; try discriminate;
    rewrite ?Z.leb_le; intros Hx Hxx Hy Hyy.
  - apply round_mono. lia.
  - pose proof (round_mono 0 (x + y) ltac:(lia)) as H.
    change (round 0) with (Fin 0) in H.
    destruct (round (x + y)); simpl in *; try reflexivity; discriminate.
  - pose proof (round_mono 0 (x + y) ltac:(lia)) as H.
    change (round 0) with (Fin 0) in H.
    destruct (round (x + y)); simpl in *; try reflexivity; discriminate.
  - pose proof (round_mono 0 (x + y) ltac:(lia)) as H.
    change (round 0) with (Fin 0) in H.
    destruct (round (x + y)); simpl in *; try reflexivity; discriminate.
Qed.

Lemma num_add_nonneg a b :
  num_le (Fin 0) a -> num_le (Fin 0) b -> num_le (Fin 0) (num_add a b).
Proof.
  intros Ha Hb.
  apply (num_add_mono (Fin 0) a (Fin 0) b); try assumption; reflexivity.
Qed.

Lemma num_ltb_ge a c :
  num_ltb a (Fin c) = false -> a <> NaN -> num_le (Fin c) a.
Proof.
  destruct a as [x| | |]; simpl; intros H Hn; try reflexivity;
    try discriminate; [|contradiction].
  apply num_le_Fin. apply Z.ltb_ge in H. exact H.
Qed.

Lemma num_add_Fin_not_NaN a d : a <> NaN -> num_add a (Fin d) <> NaN.
Proof.
  destruct a as [x| | |]; simpl; intros H; try discriminate;
    [|contradiction].
  unfold round. destruct (_ <=? _); [discriminate|].
  cbv zeta. destruct (_ <=? _); [destruct (_ <? _)|]; discriminate.
Qed.

(** ** Arrays *)

Lemma findIndex_found {A} (p : A -> bool) (arr : list A) i x :
  arr !! i = Some x -> p x = true ->
  (forall j y, (j < i)%nat -> arr !! j = Some y -> p y = false) ->
  findIndex p arr = Z.of_nat i.
Proof.
  intros Hi Hp Hfirst. unfold findIndex.
  destruct (list_find _ arr) as [[k y]|] eqn:E.
  - apply list_find_Some in E as (Hk & Hy & Hmin).
    destruct (Nat.lt_trichotomy k i) as [Hlt|[->|Hgt]]; [|reflexivity|].
    + rewrite (Hfirst _ _ Hlt Hk) in Hy. destruct Hy.
    + exfalso. apply (Hmin _ _ Hi Hgt). rewrite Hp. exact I.
  - rewrite list_find_None in E. rewrite Forall_lookup in E.
    exfalso. apply (E _ _ Hi). rewrite Hp. exact I.
Qed.

Lemma findIndex_none {A} (p : A -> bool) (arr : list A) :
  findIndex p arr = -1 <-> (forall x, x ∈ arr -> p x = false).
Proof.
  unfold findIndex.
  destruct (list_find _ arr) as [[k y]|] eqn:E.
  - apply list_find_Some in E as (Hk & Hy & _). split; [lia|].
    intros H. rewrite (H y) in Hy; [destruct Hy|].
    eapply list_elem_of_lookup_2; eauto.
  - rewrite list_find_None, Forall_forall in E. split; [|reflexivity].
    intros _ x Hx. specialize (E x Hx).
    destruct (p x); [exfalso; apply E; exact I | reflexivity].
Qed.

Lemma findIndex_cases {A} (p : A -> bool) (arr : list A) :
  (findIndex p arr = -1 /\ forall x, x ∈ arr -> p x = false) \/
  (exists i x, findIndex p arr = Z.of_nat i /\ arr !! i = Some x /\
     p x = true /\
     forall j y, (j < i)%nat -> arr !! j = Some y -> p y = false).
Proof.
  destruct (list_find (fun x => Is_true (p x)) arr) as [[k y]|] eqn:E.
  - right. pose proof E as E'.
    apply list_find_Some in E as (Hk & Hy & Hmin).
    exists k, y. unfold findIndex. rewrite E'.
    repeat split; try assumption.
    + apply Is_true_true_1 in Hy. exact Hy.
    + intros j z Hj Hz. specialize (Hmin _ _ Hz Hj).
      destruct (p z); [exfalso; apply Hmin; exact I | reflexivity].
  - left.
    assert (findIndex p arr = -1) as H by (unfold findIndex; by rewrite E).
    split; [exact H|]. by apply findIndex_none.
Qed.

Lemma at_index_nat {A} (arr : list A) (i : nat) :
  at_index arr (Z.of_nat i) = arr !! i.
Proof.
  unfold at_index. rewrite Nat2Z.id.
  destruct (0 <=? Z.of_nat i) eqn:E; [reflexivity|].
  apply Z.leb_gt in E. lia.
Qed.

Lemma at_index_Some {A} (arr : list A) (z : Z) x :
  at_index arr z = Some x -> exists i, z = Z.of_nat i /\ arr !! i = Some x.
Proof.
  unfold at_index. destruct (0 <=? z) eqn:E; [|discriminate].
  apply Z.leb_le in E. intros H. exists (Z.to_nat z). split; [lia|exact H].
Qed.

(** Sums computed by [reduce]. *)
Lemma sum_fold_acc {A} (f : A -> Z) (l : list A) (a : Z) :
  fold_left (fun total item => total + f item) l a =
  a + fold_left (fun total item => total + f item) l 0.
Proof.
  revert a. induction l as [|x l IH]; intros a; simpl; [lia|].
  rewrite (IH (a + f x)), (IH (0 + f x)). lia.
Qed.

Lemma sum_fold_app {A} (f : A -> Z) (l1 l2 : list A) :
  fold_left (fun total item => total + f item) (l1 ++ l2) 0 =
  fold_left (fun total item => total + f item) l1 0 +
  fold_left (fun total item => total + f item) l2 0.
Proof. rewrite fold_left_app. apply sum_fold_acc. Qed.

Lemma sum_fold_alter {A} (f : A -> Z) (g : A -> A) (l : list A) i x :
  l !! i = Some x ->
  fold_left (fun total item => total + f item) (alter g i l) 0 =
  fold_left (fun total item => total + f item) l 0 + (f (g x) - f x).
Proof.
  revert i. induction l as [|y l IH]; intros [|i] Hi; simpl in *;
    try discriminate.
  - injection Hi as ->.
    rewrite (sum_fold_acc f l (0 + f (g x))), (sum_fold_acc f l (0 + f x)).
    lia.
  - change (list_alter g i l) with (alter g i l).
    rewrite (sum_fold_acc f (alter g i l) (0 + f y)).
    rewrite (sum_fold_acc f l (0 + f y)), (IH _ Hi). lia.
Qed.

Lemma alter_take_drop {A} (g : A -> A) (l : list A) i x :
  l !! i = Some x -> alter g i l = take i l ++ g x :: drop (S i) l.
Proof.
  revert i. induction l as [|y l IH]; intros [|i] Hi; simpl in *;
    try discriminate.
  - injection Hi as ->. reflexivity.
  - f_equal. by apply IH.
Qed.

Lemma delete_take_drop {A} (l : list A) i :
  delete i l = take i l ++ drop (S i) l.
Proof.
  revert i. induction l as [|y l IH]; intros [|i]; simpl; try reflexivity.
  - f_equal. apply IH.
Qed.

Lemma sum_fold_nonneg {A} (f : A -> Z) (l : list A) :
  (forall x, x ∈ l -> 0 <= f x) ->
  0 <= fold_left (fun total item => total + f item) l 0.
Proof.
  induction l as [|x l IH]; intros H; simpl; [lia|].
  rewrite (sum_fold_acc f l).
  assert (0 <= f x) by (apply H; left).
  assert (0 <= fold_left (fun total item => total + f item) l 0).
  { apply IH. intros y Hy. apply H. by right. }
  lia.
Qed.

Lemma sum_fold_delete {A} (f : A -> Z) (l : list A) i x :
  l !! i = Some x ->
  fold_left (fun total item => total + f item) (delete i l) 0 =
  fold_left (fun total item => total + f item) l 0 - f x.
Proof.
  intros Hi. rewrite delete_take_drop.
  rewrite <- (take_drop_middle _ _ _ Hi) at 3.
  rewrite !sum_fold_app. simpl.
  rewrite (sum_fold_acc f (drop (S i) l) (0 + f x)). lia.
Qed.

Lemma keyIs_true itemKey s : keyIs itemKey s = true <-> Stack.key s = itemKey.
Proof. unfold keyIs. apply bool_decide_eq_true. Qed.

Lemma keyIs_false itemKey s :
  keyIs itemKey s = false <-> Stack.key s <> itemKey.
Proof. unfold keyIs. apply bool_decide_eq_false. Qed.

(** Sums computed by [reduce] over numbers. *)
Lemma num_fold_is_double {A} (f : A -> number) (l : list A) (a : number) :
  is_double a ->
  is_double (fold_left (fun total item => num_add total (f item)) l a).
Proof.
  revert a. induction l as [|x l IH]; intros a H; simpl; [exact H|].
  apply IH, num_add_is_double.
Qed.

Lemma num_fold_zero {A} (f : A -> number) (l : list A) (a : number) :
  (forall x, x ∈ l -> f x = Fin 0) -> is_double a ->
  fold_left (fun total item => num_add total (f item)) l a = a.
Proof.
  revert a. induction l as [|x l IH]; intros a H Ha; simpl; [reflexivity|].
  rewrite (H x) by left. rewrite num_add_0_r by exact Ha.
  apply IH; [|exact Ha]. intros y Hy. apply H. by right.
Qed.

Lemma num_fold_le {A} (f g : A -> number) (l : list A) (a a' : number) :
  (forall x, x ∈ l -> num_le (Fin 0) (f x) /\ num_le (f x) (g x)) ->
  num_le (Fin 0) a -> num_le a a' ->
  num_le (fold_left (fun total item => num_add total (f item)) l a)
         (fold_left (fun total item => num_add total (g item)) l a').
Proof.
  revert a a'. induction l as [|x l IH]; intros a a' H Ha Haa; simpl;
    [exact Haa|].
  destruct (H x) as [Hf Hfg]; [left|].
  apply IH.
  - intros y Hy. apply H. by right.
  - by apply num_add_nonneg.
  - by apply num_add_mono.
Qed.

Lemma num_fold_ge {A} (f : A -> number) (l : list A) (a : number) c :
  (forall x, x ∈ l -> num_le (Fin 0) (f x)) ->
  0 <= c <= two53 -> num_le (Fin c) a ->
  num_le (Fin c) (fold_left (fun total item => num_add total (f item)) l a).
Proof.
  revert a. induction l as [|x l IH]; intros a H Hc Ha; simpl; [exact Ha|].
  apply IH; [intros y Hy; apply H; by right | exact Hc |].
  assert (num_add (Fin c) (Fin 0) = Fin c) as <-.
  { rewrite num_add_Fin; [f_equal; lia | lia]. }
  apply num_add_mono; try assumption.
  - apply num_le_Fin. lia.
  - reflexivity.
  - apply H. left.
Qed.

(** A sum of numbers from 0 on is at least 1 once one of them is. *)
Lemma num_fold_ge_elem {A} (f : A -> number) (l : list A) x :
  (forall y, y ∈ l -> num_le (Fin 0) (f y)) ->
  x ∈ l -> num_le (Fin 1) (f x) ->
  num_le (Fin 1)
    (fold_left (fun total item => num_add total (f item)) l (Fin 0)).
Proof.
  intros Hnn Hx Hfx. apply list_elem_of_lookup_1 in Hx as [i Hi].
  rewrite <- (take_drop_middle _ _ _ Hi) in Hnn |- *.
  rewrite fold_left_app. cbn [fold_left].
  apply num_fold_ge.
  - intros y Hy. apply Hnn, elem_of_app. right. by right.
  - unfold two53. lia.
  - assert (num_add (Fin 0) (Fin 1) = Fin 1) as <- by reflexivity.
    apply num_add_mono; try reflexivity; [|exact Hfx].
    apply num_fold_ge; [|unfold two53; lia|reflexivity].
    intros y Hy. apply Hnn, elem_of_app. by left.
Qed.

(** A sum of [n] numbers that are at least 1 is at least [n], up to
    [two53]: there a sum of ones stops growing. *)
Lemma num_fold_ge_length {A} (f : A -> number) (l : list A) (a : number) c :
  (forall y, y ∈ l -> num_le (Fin 1) (f y)) ->
  0 <= c <= two53 -> num_le (Fin c) a ->
  num_le (Fin (Z.min (c + Z.of_nat (length l)) two53))
    (fold_left (fun total item => num_add total (f item)) l a).
Proof.
  revert a c. induction l as [|x l IH]; intros a c Hl Hc Ha;
    cbn [fold_left length].
  - rewrite Z.add_0_r, Z.min_l by lia. exact Ha.
  - assert (Hfx : num_le (Fin 1) (f x)) by (apply Hl; left).
    assert (Hl' : forall y, y ∈ l -> num_le (Fin 1) (f y))
      by (intros y Hy; apply Hl; by right).
    destruct (Z.eq_dec c two53) as [->|Hne].
    + rewrite Z.min_r by lia.
      assert (Hacc : num_le (Fin two53) (num_add a (f x))).
      { assert (num_add (Fin two53) (Fin 0) = Fin two53) as <-
          by reflexivity.
        apply num_add_mono; [reflexivity | exact Ha | reflexivity |].
        apply (num_le_trans _ (Fin 1)); [reflexivity | exact Hfx]. }
      specialize (IH _ two53 Hl' ltac:(lia) Hacc).
      rewrite Z.min_r in IH by lia. exact IH.
    + replace (c + Z.of_nat (S (length l)))
        with ((c + 1) + Z.of_nat (length l)) by lia.
      apply IH; [exact Hl' | lia |].
      assert (num_add (Fin c) (Fin 1) = Fin (c + 1)) as <-
        by (apply num_add_Fin; lia).
      apply num_add_mono;
        [apply num_le_Fin; lia | exact Ha | reflexivity | exact Hfx].
Qed.

(** Within [two53] the sums are the exact integer sums. *)
Lemma num_fold_exact {A} (f : A -> number) (g h : A -> Z) (l : list A) a :
  (forall x, x ∈ l -> f x = Fin (g x) /\ Z.abs (g x) <= h x) ->
  Z.abs a + fold_left (fun total item => total + h item) l 0 <= two53 ->
  fold_left (fun total item => num_add total (f item)) l (Fin a) =
  Fin (fold_left (fun total item => total + g item) l a).
Proof.
  revert a. induction l as [|x l IH]; intros a H Hb; cbn [fold_left];
    [reflexivity|].
  destruct (H x) as [Hf Hg]; [left|].
  cbn [fold_left] in Hb.
  assert (Hacc : forall (l : list A) b,
            fold_left (fun total item => total + h item) l b =
            b + fold_left (fun total item => total + h item) l 0).
  { clear. induction l as [|y l IHl]; intros b; simpl; [lia|].
    rewrite (IHl (b + h y)), (IHl (0 + h y)). lia. }
  assert (Hnn : forall l : list A, (forall y, y ∈ l -> 0 <= h y) ->
            0 <= fold_left (fun total item => total + h item) l 0).
  { clear -Hacc. induction l as [|y l IHl]; intros Hl; simpl; [lia|].
    rewrite Hacc. assert (0 <= h y) by (apply Hl; left).
    assert (0 <= fold_left (fun total item => total + h item) l 0)
      by (apply IHl; intros z Hz; apply Hl; by right).
    lia. }
  rewrite Hacc in Hb.
  assert (0 <= fold_left (fun total item => total + h item) l 0).
  { apply Hnn. intros y Hy. destruct (H y) as [_ Hy']; [by right|]. lia. }
  rewrite Hf, num_add_Fin by lia.
  apply IH; [intros y Hy; apply H; by right | lia].
Qed.

(** ** Amounts within the safe range *)

Lemma sum_fold_elem {A} (f : A -> Z) (l : list A) x :
  (forall y, y ∈ l -> 0 <= f y) -> x ∈ l ->
  f x <= fold_left (fun total item => total + f item) l 0.
Proof.
  intros Hnn Hx. apply list_elem_of_lookup_1 in Hx as [i Hi].
  rewrite <- (take_drop_middle _ _ _ Hi) in Hnn |- *.
  rewrite sum_fold_app. simpl.
  rewrite (sum_fold_acc f (drop (S i) l)).
  assert (0 <= fold_left (fun total item => total + f item) (take i l) 0).
  { apply sum_fold_nonneg. intros y Hy. apply Hnn, elem_of_app. by left. }
  assert (0 <= fold_left (fun total item => total + f item)
                  (drop (S i) l) 0).
  { apply sum_fold_nonneg. intros y Hy. apply Hnn, elem_of_app. right.
    by right. }
  lia.
Qed.

Lemma magnitude_nonneg s : 0 <= magnitude s.
Proof. unfold magnitude. lia. Qed.

Lemma safe_amount arr extra s :
  within_safe_range arr extra -> s ∈ arr ->
  exists a, Stack.amount s = Fin a /\ extra + Z.abs a <= two53.
Proof.
  intros [Hfin Hsum] Hs. destruct (Hfin s Hs) as [a Ha].
  exists a. split; [exact Ha|].
  pose proof (sum_fold_elem magnitude arr s
                (fun y _ => magnitude_nonneg y) Hs) as Hle.
  unfold magnitude at 1 in Hle. rewrite Ha in Hle. simpl in Hle. lia.
Qed.

(** Within the safe range the amounts the queries add up are the exact
    integer sums. *)
Lemma safe_sum (p : Stack.t -> bool) arr extra :
  within_safe_range arr extra -> 0 <= extra ->
  fold_left
    (fun total item =>
       num_add total (if p item then Stack.amount item else Fin 0))
    arr (Fin 0) =
  Fin (fold_left
         (fun total item =>
            total + (if p item then value (Stack.amount item) else 0))
         arr 0).
Proof.
  intros [Hfin Hsum] Hextra.
  apply (num_fold_exact _ _ magnitude).
  - intros x Hx. destruct (Hfin x Hx) as [a Ha].
    unfold magnitude. rewrite Ha. simpl.
    destruct (p x); split; try reflexivity; lia.
  - simpl. lia.
Qed.

Lemma safe_total arr extra :
  within_safe_range arr extra -> 0 <= extra ->
  fold_left (fun total item => num_add total (Stack.amount item)) arr (Fin 0)
  = Fin (fold_left (fun total item => total + value (Stack.amount item))
           arr 0).
Proof. exact (safe_sum (fun _ => true) arr extra). Qed.

Lemma within_safe_range_alter arr i s a d extra extra' :
  arr !! i = Some s -> Stack.amount s = Fin a ->
  within_safe_range arr extra -> 0 <= extra' ->
  extra' + Z.abs (a + d) <= extra + Z.abs a ->
  num_add (Fin a) (Fin d) = Fin (a + d) /\
  within_safe_range (alter (addAmount d) i arr) extra'.
Proof.
  intros Hi Ha Hsafe Hextra Hle.
  destruct (safe_amount _ _ _ Hsafe (list_elem_of_lookup_2 _ _ _ Hi))
    as (a' & Ha' & Hbound).
  rewrite Ha in Ha'. injection Ha' as <-.
  assert (Hexact : num_add (Fin a) (Fin d) = Fin (a + d))
    by (apply num_add_Fin; lia).
  split; [exact Hexact|].
  destruct Hsafe as [Hfin Hsum]. split.
  - intros x Hx. apply list_elem_of_lookup_1 in Hx as [j Hj].
    rewrite list_lookup_alter in Hj.
    destruct (decide (i = j)) as [->|Hne].
    + rewrite Hi in Hj. injection Hj as <-. unfold addAmount. simpl.
      rewrite Ha, Hexact. eauto.
    + apply Hfin. eapply list_elem_of_lookup_2; eauto.
  - rewrite (sum_fold_alter magnitude _ _ _ _ Hi).
    unfold magnitude at 2 3, addAmount. simpl.
    rewrite Ha, Hexact. simpl. lia.
Qed.

Lemma within_safe_range_snoc arr k n d :
  within_safe_range arr n -> 0 <= n ->
  within_safe_range (arr ++ [Stack.mk k (Fin n) d]) 0.
Proof.
  intros [Hfin Hsum] Hn. split.
  - intros x Hx. apply elem_of_app in Hx as [Hx|Hx]; [by apply Hfin|].
    apply list_elem_of_singleton in Hx as ->. simpl. eauto.
  - rewrite sum_fold_app. simpl. unfold magnitude at 2. simpl. lia.
Qed.

Lemma within_safe_range_delete arr i extra :
  within_safe_range arr extra -> within_safe_range (delete i arr) extra.
Proof.
  intros [Hfin Hsum]. split.
  - intros x Hx. apply Hfin. rewrite delete_take_drop in Hx.
    apply elem_of_app in Hx as [Hx|Hx].
    + apply elem_of_take in Hx as (j & Hj & _).
      eapply list_elem_of_lookup_2; eauto.
    + apply list_elem_of_lookup_1 in Hx as [j Hj].
      rewrite lookup_drop in Hj. eapply list_elem_of_lookup_2; eauto.
  - destruct (arr !! i) as [x|] eqn:Hi.
    + rewrite (sum_fold_delete magnitude _ _ _ Hi).
      pose proof (magnitude_nonneg x). lia.
    + rewrite delete_take_drop, take_ge, drop_ge, app_nil_r;
        [exact Hsum | |]; apply lookup_ge_None in Hi; lia.
Qed.

(** ** The registry *)

Lemma hasItem_Return self key registered :
  hasItem self key = Return registered ->
  own_property self "hasOwnProperty" = None /\
  registered = bool_decide (is_Some (own_property self key)).
Proof.
  unfold hasItem. destruct (own_property self "hasOwnProperty");
    [discriminate|].
  intros [= <-]. split; reflexivity.
Qed.

Lemma hasItem_false_getItem self key :
  hasItem self key = Return false -> key <> "__proto__" ->
  getItem self key = None.
Proof.
  intros [_ Hb]%hasItem_Return Hne. symmetry in Hb.
  apply bool_decide_eq_false in Hb. unfold getItem.
  destruct (own_property self key) eqn:E; [exfalso; apply Hb; eauto|].
  rewrite decide_False by exact Hne. reflexivity.
Qed.

Lemma length_lt_1 (s : string) : (String.length s <? 1)%nat = true <-> s = "".
Proof.
  rewrite Nat.ltb_lt. destruct s; simpl; split; intros H;
    try reflexivity; try lia; discriminate.
Qed.

Lemma getItem_set_item key def self :
  getItem (set_item key def self) key = Some def.
Proof.
  unfold getItem, set_item, own_property.
  destruct (decide (key = "__proto__")) as [->|Hne]; simpl.
  - reflexivity.
  - by rewrite lookup_insert_eq.
Qed.

(** The four rejections of [addItem]. *)
Lemma addItem_rejects key name description onUse nameFunc descFunc self log :
  (exists k, key = JStr k /\ hasItem self k = Return true) \/
  ~ (exists k, key = JStr k /\ k <> "") \/
  ~ (exists n, name = JStr n /\ n <> "") \/
  ~ (exists d, description = JStr d) ->
  addItem key name description onUse nameFunc descFunc self log =
  (Return None, self, log).
Proof.
  intros H. unfold addItem.
  destruct key as [| | | | | |k| |]; try reflexivity.
  destruct (String.length k <? 1)%nat eqn:Ek; [reflexivity|].
  destruct name as [| | | | | |n| |]; try reflexivity.
  destruct (String.length n <? 1)%nat eqn:En; [reflexivity|].
  destruct description as [| | | | | |d| |]; try reflexivity.
  destruct H as [(k' & [= <-] & Hk)|[H|[H|H]]].
  - rewrite Hk. reflexivity.
  - exfalso. apply H. exists k. split; [reflexivity|]. intros ->.
    discriminate.
  - exfalso. apply H. exists n. split; [reflexivity|]. intros ->.
    discriminate.
  - exfalso. apply H. eauto.
Qed.

Lemma addItem_success k n d onUse nameFunc descFunc self log :
  k <> "" -> n <> "" -> hasItem self k = Return false ->
  addItem (JStr k) (JStr n) (JStr d) onUse nameFunc descFunc self log =
  (Return (Some (ItemDef.mk n d onUse nameFunc descFunc)),
   set_item k (ItemDef.mk n d onUse nameFunc descFunc) self,
   log ++ [itemDefined k n d]).
Proof.
  intros Hk Hn Hfresh. unfold addItem.
  destruct (String.length k <? 1)%nat eqn:Ek;
    [apply length_lt_1 in Ek; contradiction|].
  destruct (String.length n <? 1)%nat eqn:En;
    [apply length_lt_1 in En; contradiction|].
  rewrite Hfresh, getItem_set_item. reflexivity.
Qed.

(** For every key but ["__proto__"] and ["hasOwnProperty"], a key that was
    registered is registered: a second [addItem] with it returns null and
    changes nothing. *)
Lemma addItem_twice k n d onUse nameFunc descFunc self log
    name' description' onUse' nameFunc' descFunc' :
  k <> "" -> n <> "" -> hasItem self k = Return false ->
  k <> "__proto__" -> k <> "hasOwnProperty" ->
  let self1 := set_item k (ItemDef.mk n d onUse nameFunc descFunc) self in
  let log1 := log ++ [itemDefined k n d] in
  addItem (JStr k) (JStr n) (JStr d) onUse nameFunc descFunc self log =
    (Return (Some (ItemDef.mk n d onUse nameFunc descFunc)), self1, log1) /\
  addItem (JStr k) name' description' onUse' nameFunc' descFunc' self1 log1 =
    (Return None, self1, log1) /\
  getItem self1 k = Some (ItemDef.mk n d onUse nameFunc descFunc).
Proof.
  intros Hk Hn Hfresh Hproto Hshadow self1 log1.
  split; [by apply addItem_success|].
  split; [|apply getItem_set_item].
  apply addItem_rejects. left. exists k. split; [reflexivity|].
  apply hasItem_Return in Hfresh as [Hmethod _].
  unfold hasItem, self1, set_item, own_property in *.
  rewrite !decide_False in * by (try exact Hproto; discriminate).
  simpl. rewrite lookup_insert_ne by congruence.
  rewrite Hmethod, lookup_insert_eq.
  rewrite bool_decide_eq_true_2 by eauto. reflexivity.
Qed.

(** Once an item has the key "hasOwnProperty", [hasItem] throws for every
    key. *)
Lemma hasItem_shadowed key : hasItem shadowed_registry key = Throw TypeError.
Proof. reflexivity. Qed.

(** C7 (what the code does).  With the registry of one medkit the two
    methods display "Invalid Item" and the empty string for a key that was
    never registered.  Once an item with the key "hasOwnProperty" is
    registered they throw a TypeError for every key and data, that
    unregistered key and the registered "item_medkit" included.  And for an
    item registered under the key "__proto__", which [addItem] and [getItem]
    return with its name "First", [getItemName] displays "Invalid Item" and
    [getItemDescription] the empty string. *)
Theorem getItemName_special_keys :
  (getItemName medkit_registry "item_unknown" JNull
     = Return (JStr "Invalid Item") /\
   getItemDescription medkit_registry "item_unknown" JNull
     = Return (JStr "")) /\
  (forall key data,
      getItemName shadowed_registry key data = Throw TypeError /\
      getItemDescription shadowed_registry key data = Throw TypeError) /\
  (exists def self1 log1,
      addItem (JStr "__proto__") (JStr "First") (JStr "The first item") None
        None None medkit_registry [] = (Return (Some def), self1, log1) /\
      ItemDef.name def = "First" /\
      ItemDef.nameFunc def = None /\
      getItem self1 "__proto__" = Some def /\
      getItemName self1 "__proto__" JNull = Return (JStr "Invalid Item") /\
      getItemDescription self1 "__proto__" JNull = Return (JStr "")).
Proof.
  split; [split; reflexivity|]. split.
  - intros key data. unfold getItemName, getItemDescription.
    rewrite hasItem_shadowed. split; reflexivity.
  - eexists _, _, _. split; [reflexivity|]. repeat split.
Qed.

(** ** The ledger *)

Section LedgerProperties.

Variable isEqual : jsval -> jsval -> bool.
Variable inventoryScript : InventoryScript.

(** Structural equality relates every value to itself. *)
Hypothesis isEqual_refl : forall d, isEqual d d = true.

Local Abbreviation giveItem := (giveItem isEqual inventoryScript).
Local Abbreviation useItem := (useItem inventoryScript).
Local Abbreviation getItemAmountWithData := (getItemAmountWithData isEqual).

(** The test on the amount in [giveItem], in the words of the
    specification. *)
Lemma amount_guard amount :
  Number_isInteger amount && (0 <? integerValue amount) = true <->
  exists n, number_is amount n /\ 0 < n.
Proof.
  rewrite andb_true_iff, Z.ltb_lt. split.
  - intros [Hi Hp]. exists (integerValue amount). split; [|exact Hp].
    by apply number_is_spec.
  - intros (n & Hn & Hp). apply number_is_spec in Hn as [Hi <-]. done.
Qed.

Lemma giveItem_throws itemKey amount data w e :
  hasItem inventoryScript itemKey = Throw e ->
  giveItem itemKey amount data w = (Throw e, w).
Proof. intros Hh. unfold giveItem. rewrite Hh. reflexivity. Qed.

Lemma giveItem_success itemKey amount data w :
  hasItem inventoryScript itemKey = Return true ->
  Number_isInteger amount && (0 <? integerValue amount) = true ->
  giveItem itemKey amount data w =
  (Return true,
   mkWorld (actor w)
     (if negb
           (findIndex (keyDataIs isEqual itemKey data) (_inventory w) =? -1)
      then
        alter (addAmount (integerValue amount))
          (Z.to_nat
             (findIndex (keyDataIs isEqual itemKey data) (_inventory w)))
          (_inventory w)
      else
        _inventory w ++ [Stack.mk itemKey (Fin (integerValue amount)) data])
     (emitted w
        ++ [itemAdded (actor w) itemKey (integerValue amount) data])).
Proof.
  intros Hh Hg. unfold giveItem. rewrite Hh. cbn [andb]. rewrite Hg.
  unfold bind, getItemIndexWithData, this, set__inventory, emit, ret.
  destruct (negb _); reflexivity.
Qed.

Lemma giveItem_failure itemKey amount data w registered :
  hasItem inventoryScript itemKey = Return registered ->
  registered && (Number_isInteger amount && (0 <? integerValue amount))
    = false ->
  giveItem itemKey amount data w = (Return false, w).
Proof.
  intros Hh Hg. unfold giveItem. rewrite Hh, <- andb_assoc, Hg.
  reflexivity.
Qed.

(** The three ways [giveItem] can end. *)
Lemma giveItem_cases itemKey amount data w :
  (exists e, hasItem inventoryScript itemKey = Throw e /\
             giveItem itemKey amount data w = (Throw e, w)) \/
  giveItem itemKey amount data w = (Return false, w) \/
  (hasItem inventoryScript itemKey = Return true /\
   Number_isInteger amount && (0 <? integerValue amount) = true).
Proof.
  destruct (hasItem inventoryScript itemKey) as [b|e] eqn:Hh.
  - destruct (b && (Number_isInteger amount && (0 <? integerValue amount)))
      eqn:Hg.
    + apply andb_true_iff in Hg as [-> Hg]. right. right. by split.
    + right. left. by apply (giveItem_failure _ _ _ _ b).
  - left. exists e. split; [reflexivity|]. by apply giveItem_throws.
Qed.


(** As long as the registry answers, [giveItem] returns false and leaves the
    player as it was when the key is not registered or the amount is not a
    positive integer. *)
Lemma giveItem_returns_false itemKey amount data w registered :
  hasItem inventoryScript itemKey = Return registered ->
  registered = false \/ ~ (exists n, number_is amount n /\ 0 < n) ->
  giveItem itemKey amount data w = (Return false, w).
Proof.
  intros Hh H. apply (giveItem_failure _ _ _ _ registered Hh).
  destruct H as [->|H]; [reflexivity|].
  destruct (Number_isInteger amount && (0 <? integerValue amount)) eqn:Hg.
  - apply amount_guard in Hg. contradiction.
  - apply andb_false_r.
Qed.

(** ** Removing *)

Lemma delete_alter {A} (g : A -> A) (l : list A) i :
  delete i (alter g i l) = delete i l.
Proof.
  revert i. induction l as [|y l IH]; intros [|i]; simpl; try reflexivity.
  f_equal. apply IH.
Qed.

Lemma removeItem_success itemIdx amount i s w :
  number_is itemIdx (Z.of_nat i) ->
  _inventory w !! i = Some s ->
  Number_isInteger amount && (0 <? integerValue amount) = true ->
  removeItem itemIdx amount w =
  (true,
   if num_ltb (Stack.amount (addAmount (- integerValue amount) s)) (Fin 1)
   then
     mkWorld (actor w) (delete i (_inventory w))
       (emitted w
          ++ [itemRemoved (actor w) (Z.of_nat i) (Stack.key s)
                (integerValue amount) (Stack.data s)]
          ++ [itemRemovedCompletely (actor w) (Stack.key s) (Stack.data s)])
   else
     mkWorld (actor w)
       (alter (addAmount (- integerValue amount)) i (_inventory w))
       (emitted w
          ++ [itemRemoved (actor w) (Z.of_nat i) (Stack.key s)
                (integerValue amount) (Stack.data s)])).
Proof.
  intros Hidx Hi Hg.
  apply number_is_spec in Hidx as [Hint Hval].
  assert (default_amount amount = amount) as Hd.
  { destruct amount; try reflexivity. discriminate. }
  unfold removeItem. rewrite Hd. unfold bind at 1. unfold this at 1.
  rewrite Hint, Hval, at_index_nat, Hi, Hg, Nat2Z.id.
  unfold bind, set__inventory, emit, ret. simpl.
  rewrite list_lookup_alter, decide_True, Hi by reflexivity.
  cbn [fmap option_fmap option_map].
  destruct (num_ltb _ _); simpl.
  - rewrite delete_alter, <- app_assoc. reflexivity.
  - reflexivity.
Qed.

(** C2, as amended.  At an index [i] holding a stack and for a positive
    integer amount [n], [removeItem] returns true and emits [itemRemoved]
    with (actor, i, key, n, data).  The amount left is the difference of
    the stack's amount and [n] as the code computes it.  When it is below 1
    the stack is taken out of the sequence (later stacks move down by one)
    and [itemRemovedCompletely] with (actor, key, data) follows; otherwise
    the stack stays at [i] with the amount left and nothing else is
    emitted.  All other stacks are as before.  The amount left is exactly
    the stack's amount minus [n] when the stack's amount is an integer and
    the difference does not exceed 2^53 in magnitude. *)
Theorem removeItem_at_index itemIdx amount i s n w :
  number_is itemIdx (Z.of_nat i) ->
  _inventory w !! i = Some s ->
  number_is amount n -> 0 < n ->
  exists w',
    removeItem itemIdx amount w = (true, w') /\
    actor w' = actor w /\
    (num_ltb (num_add (Stack.amount s) (Fin (- n))) (Fin 1) = true ->
     _inventory w' = take i (_inventory w) ++ drop (S i) (_inventory w) /\
     emitted w' =
       emitted w
         ++ [itemRemoved (actor w) (Z.of_nat i) (Stack.key s) n
               (Stack.data s);
             itemRemovedCompletely (actor w) (Stack.key s)
               (Stack.data s)]) /\
    (num_ltb (num_add (Stack.amount s) (Fin (- n))) (Fin 1) = false ->
     _inventory w' =
       take i (_inventory w)
         ++ Stack.mk (Stack.key s) (num_add (Stack.amount s) (Fin (- n)))
              (Stack.data s)
         :: drop (S i) (_inventory w) /\
     emitted w' =
       emitted w
         ++ [itemRemoved (actor w) (Z.of_nat i) (Stack.key s) n
               (Stack.data s)]) /\
    (forall a, Stack.amount s = Fin a -> Z.abs (a - n) <= two53 ->
               num_add (Stack.amount s) (Fin (- n)) = Fin (a - n) /\
               num_ltb (num_add (Stack.amount s) (Fin (- n))) (Fin 1)
                 = (a - n <? 1)).
Proof.
  intros Hidx Hi Hn Hpos.
  apply number_is_spec in Hn as [Hint Hv].
  assert (Hg : Number_isInteger amount && (0 <? integerValue amount) = true).
  { rewrite Hint, Hv. simpl. apply Z.ltb_lt. exact Hpos. }
  eexists. split; [apply (removeItem_success _ _ _ _ _ Hidx Hi Hg)|].
  rewrite Hv.
  change (Stack.amount (addAmount (- n) s))
    with (num_add (Stack.amount s) (Fin (- n))).
  split; [destruct (num_ltb _ (Fin 1)); reflexivity|].
  split; [|split].
  - intros ->. split; [apply delete_take_drop | reflexivity].
  - intros ->. split; [|reflexivity].
    apply (alter_take_drop (addAmount (- n)) _ _ _ Hi).
  - intros a Ha Hbound. rewrite Ha.
    rewrite num_add_Fin
      by (replace (a + - n) with (a - n) by lia; exact Hbound).
    replace (a + - n) with (a - n) by lia. split; reflexivity.
Qed.

(** Leaving the amount out removes one unit. *)
Lemma removeItem_default itemIdx w :
  removeItem itemIdx JUndefined w = removeItem itemIdx (JInt 1) w.
Proof. reflexivity. Qed.

(** ** Using *)


Lemma useItem_success itemIdx i s w :
  number_is itemIdx (Z.of_nat i) ->
  _inventory w !! i = Some s ->
  useItem itemIdx w =
  (true,
   let w1 :=
     run_onUse inventoryScript (Z.of_nat i) (Stack.key s) (Stack.data s) w
   in
   mkWorld (actor w1) (_inventory w1)
     (emitted w1
        ++ [itemUsed (actor w) (Z.of_nat i) (Stack.key s) (Stack.data s)])).
Proof.
  intros Hidx Hi. apply number_is_spec in Hidx as [Hint Hval].
  unfold useItem, run_onUse. unfold bind at 1. unfold this at 1.
  rewrite Hint, Hval, at_index_nat, Hi.
  unfold bind, emit, ret.
  destruct (getItem inventoryScript (Stack.key s)) as [def|];
    [destruct (ItemDef.onUse def)|]; reflexivity.
Qed.

Lemma useItem_failure itemIdx w :
  (forall i, number_is itemIdx (Z.of_nat i) -> _inventory w !! i = None) ->
  useItem itemIdx w = (false, w).
Proof.
  intros H. unfold useItem. unfold bind, this.
  destruct (Number_isInteger itemIdx) eqn:Hint; [|reflexivity].
  destruct (at_index _ _) as [s|] eqn:E; [|reflexivity].
  apply at_index_Some in E as (i & Hv & Hi).
  rewrite H in Hi; [discriminate|].
  apply number_is_spec. split; [exact Hint | exact Hv].
Qed.

(** C6.  At an integer index holding a stack, [useItem] returns true and
    the last event it emits is [itemUsed] with (actor, index, key, data);
    when the item's definition has no [onUse] function the inventory is
    left exactly as it was and that event is the only one.  When no stack
    exists at the index, [useItem] returns false and changes nothing. *)
Theorem useItem_frame itemIdx w :
  (forall i s,
      number_is itemIdx (Z.of_nat i) -> _inventory w !! i = Some s ->
      (exists w',
          useItem itemIdx w = (true, w') /\
          last (emitted w') =
            Some (itemUsed (actor w) (Z.of_nat i) (Stack.key s)
                    (Stack.data s))) /\
      ((forall def, getItem inventoryScript (Stack.key s) = Some def ->
                    ItemDef.onUse def = None) ->
       useItem itemIdx w =
       (true,
        mkWorld (actor w) (_inventory w)
          (emitted w
             ++ [itemUsed (actor w) (Z.of_nat i) (Stack.key s)
                   (Stack.data s)])))) /\
  ((forall i, number_is itemIdx (Z.of_nat i) -> _inventory w !! i = None) ->
   useItem itemIdx w = (false, w)).
Proof.
  split; [|apply useItem_failure].
  intros i s Hidx Hi. rewrite (useItem_success _ _ _ _ Hidx Hi). split.
  - eexists. split; [reflexivity|]. simpl. apply last_snoc.
  - intros Hno. unfold run_onUse.
    destruct (getItem inventoryScript (Stack.key s)) as [def|] eqn:E;
      [rewrite (Hno def eq_refl)|]; reflexivity.
Qed.

(** C9.  [useItem] checks the index only: at an integer index holding a
    stack whose key is not registered it still returns true and its last
    event is [itemUsed] with (actor, index, key, data); no [onUse] function
    is found under an unregistered key (other than ["__proto__"], which
    reads the prototype of [_items]), so the inventory is as it was. *)
Theorem useItem_unregistered_key itemIdx i s w :
  number_is itemIdx (Z.of_nat i) ->
  _inventory w !! i = Some s ->
  hasItem inventoryScript (Stack.key s) = Return false ->
  exists w',
    useItem itemIdx w = (true, w') /\
    last (emitted w') =
      Some (itemUsed (actor w) (Z.of_nat i) (Stack.key s) (Stack.data s)) /\
    (Stack.key s <> "__proto__" ->
     w' =
     mkWorld (actor w) (_inventory w)
       (emitted w
          ++ [itemUsed (actor w) (Z.of_nat i) (Stack.key s)
                (Stack.data s)])).
Proof.
  intros Hidx Hi Hk. rewrite (useItem_success _ _ _ _ Hidx Hi).
  eexists. split; [reflexivity|]. split; [apply last_snoc|].
  intros Hne. unfold run_onUse.
  rewrite (hasItem_false_getItem _ _ Hk Hne). reflexivity.
Qed.

(** ** Replacing *)

(** C8.  [setInventory] with an array returns true and emits
    [inventoryReplaced] carrying the old sequence; handing that old
    sequence to [setInventory] again gives the player its original
    inventory back. *)
Theorem setInventory_round_trip newInventory w :
  exists w1 oldInventory w2,
    setInventory (IsArray newInventory) w = (true, w1) /\
    _inventory w1 = newInventory /\
    last (emitted w1) =
      Some (inventoryReplaced (actor w) oldInventory newInventory) /\
    setInventory (IsArray oldInventory) w1 = (true, w2) /\
    _inventory w2 = _inventory w.
Proof.
  eexists _, (_inventory w), _. unfold setInventory.
  unfold bind, this, set__inventory, emit, ret. simpl.
  repeat split. apply last_snoc.
Qed.

Lemma setInventory_not_array v w : setInventory (NotArray v) w = (false, w).
Proof. reflexivity. Qed.

End LedgerProperties.

(** ** Invariants of the inventory *)

Section Invariants.

Variable isEqual : jsval -> jsval -> bool.
Variable inventoryScript : InventoryScript.

Local Abbreviation giveItem := (giveItem isEqual inventoryScript).
Local Abbreviation useItem := (useItem inventoryScript).

Lemma amounts_positive_cons s arr :
  amounts_positive (s :: arr) <->
  num_le (Fin 1) (Stack.amount s) /\ amounts_positive arr.
Proof.
  unfold amounts_positive. split.
  - intros H. split; [apply H; left|]. intros x Hx. apply H. by right.
  - intros [Hs H] x Hx. apply elem_of_cons in Hx as [->|Hx]; auto.
Qed.

Lemma amounts_positive_app arr1 arr2 :
  amounts_positive (arr1 ++ arr2) <->
  amounts_positive arr1 /\ amounts_positive arr2.
Proof.
  unfold amounts_positive. split.
  - intros H. split; intros x Hx; apply H, elem_of_app; auto.
  - intros [H1 H2] x Hx. apply elem_of_app in Hx as [Hx|Hx]; auto.
Qed.

Lemma amounts_positive_take_drop arr i :
  amounts_positive arr ->
  amounts_positive (take i arr) /\ amounts_positive (drop i arr).
Proof.
  intros H. apply amounts_positive_app. by rewrite take_drop.
Qed.

Lemma giveItem_amounts_positive itemKey amount data w :
  amounts_positive (_inventory w) ->
  amounts_positive (_inventory (snd (giveItem itemKey amount data w))).
Proof.
  intros Hinv.
  destruct (giveItem_cases isEqual inventoryScript itemKey amount data w)
    as [(e & _ & ->)|[->|[Hh Hg]]]; [exact Hinv | exact Hinv |].
  rewrite (giveItem_success _ _ _ _ _ _ Hh Hg). cbn [snd _inventory].
  apply andb_true_iff in Hg as [_ Hpos]. apply Z.ltb_lt in Hpos.
  destruct (findIndex_cases (keyDataIs isEqual itemKey data) (_inventory w))
    as [[E _]|(i & s & E & Hi & _ & _)]; rewrite E.
  - change (negb (-1 =? -1)) with false. cbv iota.
    apply amounts_positive_app. split; [exact Hinv|].
    apply amounts_positive_cons. cbn [Stack.amount].
    split; [apply num_le_Fin; lia|].
    intros x Hx. inversion Hx.
  - assert (negb (Z.of_nat i =? -1) = true) as ->.
    { apply negb_true_iff, Z.eqb_neq. lia. }
    rewrite Nat2Z.id, (alter_take_drop _ _ _ _ Hi).
    pose proof (Hinv s (list_elem_of_lookup_2 _ _ _ Hi)) as Hs.
    apply amounts_positive_app. split.
    + apply (amounts_positive_take_drop _ i Hinv).
    + apply amounts_positive_cons. unfold addAmount. cbn [Stack.amount].
      split; [|apply (amounts_positive_take_drop _ (S i) Hinv)].
      apply (num_le_trans _ (num_add (Fin 1) (Fin 0))); [reflexivity|].
      apply num_add_mono; try reflexivity;
        [exact Hs | apply num_le_Fin; lia].
Qed.

Lemma removeItem_cases itemIdx amount w :
  removeItem itemIdx amount w = (false, w) \/
  exists i s,
    number_is itemIdx (Z.of_nat i) /\ _inventory w !! i = Some s /\
    Number_isInteger (default_amount amount)
      && (0 <? integerValue (default_amount amount)) = true.
Proof.
  unfold removeItem. unfold bind at 1. unfold this at 1.
  destruct (Number_isInteger itemIdx) eqn:Hint; [|by left].
  destruct (at_index _ _) as [s|] eqn:E; [|by left].
  destruct (_ && _) eqn:Hg; [|by left].
  right. apply at_index_Some in E as (i & Hv & Hi).
  exists i, s. repeat split; try assumption.
  apply number_is_spec. split; assumption.
Qed.

Lemma removeItem_amounts_positive itemIdx amount w :
  amounts_positive (_inventory w) ->
  amounts_positive (_inventory (snd (removeItem itemIdx amount w))).
Proof.
  intros Hinv.
  destruct (removeItem_cases itemIdx amount w)
    as [->|(i & s & Hidx & Hi & Hg)]; [exact Hinv|].
  assert (removeItem itemIdx amount w =
          removeItem itemIdx (default_amount amount) w)
    as -> by (destruct amount; reflexivity).
  rewrite (removeItem_success _ _ _ _ _ Hidx Hi Hg).
  destruct (num_ltb _ (Fin 1)) eqn:E; cbn [snd _inventory].
  - rewrite delete_take_drop. apply amounts_positive_app. split.
    + apply (amounts_positive_take_drop _ i Hinv).
    + apply (amounts_positive_take_drop _ (S i) Hinv).
  - rewrite (alter_take_drop _ _ _ _ Hi).
    apply amounts_positive_app. split.
    + apply (amounts_positive_take_drop _ i Hinv).
    + apply amounts_positive_cons.
      split; [|apply (amounts_positive_take_drop _ (S i) Hinv)].
      apply (num_ltb_ge _ _ E). unfold addAmount. cbn [Stack.amount].
      apply num_add_Fin_not_NaN.
      apply (num_le_not_NaN (Fin 1)), Hinv.
      eapply list_elem_of_lookup_2; eauto.
Qed.

Lemma useItem_cases itemIdx w :
  useItem itemIdx w = (false, w) \/
  exists i s,
    number_is itemIdx (Z.of_nat i) /\ _inventory w !! i = Some s.
Proof.
  unfold useItem. unfold bind at 1. unfold this at 1.
  destruct (Number_isInteger itemIdx) eqn:Hint; [|by left].
  destruct (at_index _ _) as [s|] eqn:E; [|by left].
  right. apply at_index_Some in E as (i & Hv & Hi).
  exists i, s. split; [|assumption].
  apply number_is_spec. split; assumption.
Qed.

Lemma useItem_preserves (P : list Stack.t -> Prop) itemIdx w :
  hooks_preserve P inventoryScript ->
  P (_inventory w) -> P (_inventory (snd (useItem itemIdx w))).
Proof.
  intros Hhooks Hinv.
  destruct (useItem_cases itemIdx w) as [->|(i & s & Hidx & Hi)];
    [exact Hinv|].
  rewrite (useItem_success _ _ _ _ _ Hidx Hi). simpl.
  unfold run_onUse.
  destruct (getItem inventoryScript (Stack.key s)) as [def|] eqn:Ed;
    [|exact Hinv].
  destruct (ItemDef.onUse def) as [f|] eqn:Ef; [|exact Hinv].
  apply (Hhooks _ _ _ Ed Ef). exact Hinv.
Qed.

Lemma call_amounts_positive c w :
  hooks_preserve amounts_positive inventoryScript ->
  positive_argument c ->
  amounts_positive (_inventory w) ->
  amounts_positive (_inventory (snd (call isEqual inventoryScript c w))).
Proof.
  intros Hhooks Hc Hinv. destruct c as [k a d|i|i a|[arr|v]]; simpl.
  - by apply giveItem_amounts_positive.
  - unfold bind, ret.
    pose proof (useItem_preserves _ i w Hhooks Hinv) as H.
    by destruct (useItem i w).
  - unfold bind, ret.
    pose proof (removeItem_amounts_positive i a w Hinv) as H.
    by destruct (removeItem i a w).
  - exact Hc.
  - exact Hinv.
Qed.

(** C3, as amended.  Starting from the empty inventory of [playerJoin],
    after any sequence of [giveItem], [useItem], [removeItem] and
    [setInventory] calls every stack of the inventory has an amount of at
    least 1, provided that every array handed to [setInventory] holds
    only stacks with an amount of at least 1, and that the registered
    [onUse] functions keep this property of the inventory. *)
Theorem amounts_stay_positive calls actor log :
  hooks_preserve amounts_positive inventoryScript ->
  Forall positive_argument calls ->
  amounts_positive
    (_inventory (run isEqual inventoryScript calls (playerJoin actor log))).
Proof.
  intros Hhooks Hcalls. unfold run.
  assert (Hstart : amounts_positive (_inventory (playerJoin actor log))).
  { intros s Hs. inversion Hs. }
  revert Hstart. generalize (playerJoin actor log).
  induction Hcalls as [|c calls Hc _ IH]; intros w Hw; simpl.
  - exact Hw.
  - apply IH. by apply call_amounts_positive.
Qed.

End Invariants.

Section Uniqueness.

Variable isEqual : jsval -> jsval -> bool.
Variable inventoryScript : InventoryScript.

(** Structural equality does not depend on the order of its arguments. *)
Hypothesis isEqual_sym : forall a b, isEqual a b = isEqual b a.

Local Abbreviation giveItem := (giveItem isEqual inventoryScript).

Lemma keyDataIs_true itemKey data s :
  keyDataIs isEqual itemKey data s = true <->
  Stack.key s = itemKey /\ isEqual (Stack.data s) data = true.
Proof.
  unfold keyDataIs.
  rewrite andb_true_iff, bool_decide_eq_true. reflexivity.
Qed.

Lemma unique_stacks_key_data arr1 arr2 :
  map key_data arr1 = map key_data arr2 ->
  unique_stacks isEqual arr1 -> unique_stacks isEqual arr2.
Proof.
  intros Hmap Huniq i j si sj Hij Hi Hj.
  assert (Hlookup : forall k s, arr2 !! k = Some s ->
            exists s', arr1 !! k = Some s' /\ key_data s' = key_data s).
  { intros k s Hk.
    assert (map key_data arr1 !! k = Some (key_data s)) as H.
    { rewrite Hmap. change (map key_data arr2) with (key_data <$> arr2).
      rewrite list_lookup_fmap, Hk. reflexivity. }
    change (map key_data arr1) with (key_data <$> arr1) in H.
    rewrite list_lookup_fmap in H.
    destruct (arr1 !! k) as [s'|]; [|discriminate].
    exists s'. split; [reflexivity|]. simpl in H. congruence. }
  destruct (Hlookup _ _ Hi) as (si' & Hi' & [= Ei1 Ei2]).
  destruct (Hlookup _ _ Hj) as (sj' & Hj' & [= Ej1 Ej2]).
  rewrite <- Ei1, <- Ei2, <- Ej1, <- Ej2.
  apply (Huniq _ _ _ _ Hij Hi' Hj').
Qed.

Lemma map_key_data_alter d i arr :
  map key_data (alter (addAmount d) i arr) = map key_data arr.
Proof.
  revert i. induction arr as [|s arr IH]; intros [|i]; simpl;
    try reflexivity.
  f_equal. apply IH.
Qed.

Lemma unique_stacks_snoc arr itemKey n data :
  (forall s, s ∈ arr -> keyDataIs isEqual itemKey data s = false) ->
  unique_stacks isEqual arr ->
  unique_stacks isEqual (arr ++ [Stack.mk itemKey n data]).
Proof.
  intros Hnone Huniq i j si sj Hij Hi Hj [Hkey Hdata].
  assert (Hold : forall k s, (arr ++ [Stack.mk itemKey n data]) !! k = Some s ->
            (k < length arr)%nat /\ arr !! k = Some s \/
            k = length arr /\ s = Stack.mk itemKey n data).
  { intros k s Hk. apply lookup_app_Some in Hk as [Hk|[Hlen Hk]].
    - left. split; [|exact Hk]. eapply lookup_lt_Some; eauto.
    - right. apply list_lookup_singleton_Some in Hk as [Hz <-].
      split; [lia | reflexivity]. }
  destruct (Hold _ _ Hi) as [[Hil Hi']|[-> ->]],
           (Hold _ _ Hj) as [[Hjl Hj']|[-> ->]]; simpl in *.
  - apply (Huniq _ _ _ _ Hij Hi' Hj'). auto.
  - assert (keyDataIs isEqual itemKey data si = true) as Ht
      by (apply keyDataIs_true; auto).
    rewrite (Hnone si) in Ht; [discriminate|].
    eapply list_elem_of_lookup_2; eauto.
  - assert (keyDataIs isEqual itemKey data sj = true) as Ht.
    { apply keyDataIs_true. split; [auto|]. by rewrite isEqual_sym. }
    rewrite (Hnone sj) in Ht; [discriminate|].
    eapply list_elem_of_lookup_2; eauto.
  - contradiction.
Qed.

(** C10.  When no two stacks of the inventory have the same key and equal
    data, a successful [giveItem] leaves an inventory with the same
    property: if some stack has the given key and equal data, every stack
    keeps its position, key and data (the amount goes to the first such
    stack); only if there is none, one stack with the given key and data
    is appended. *)
Theorem giveItem_keeps_stacks_unique itemKey amount data w w' :
  unique_stacks isEqual (_inventory w) ->
  giveItem itemKey amount data w = (Return true, w') ->
  unique_stacks isEqual (_inventory w') /\
  ((exists s, s ∈ _inventory w /\ keyDataIs isEqual itemKey data s = true) ->
   map key_data (_inventory w') = map key_data (_inventory w)) /\
  ((forall s, s ∈ _inventory w -> keyDataIs isEqual itemKey data s = false) ->
   map key_data (_inventory w') =
     map key_data (_inventory w) ++ [(itemKey, data)]).
Proof.
  intros Huniq Hgive.
  destruct (giveItem_cases isEqual inventoryScript itemKey amount data w)
    as [(e & _ & He)|[He|[Hh Hg]]];
    [rewrite He in Hgive; discriminate..|].
  rewrite (giveItem_success _ _ _ _ _ _ Hh Hg) in Hgive.
  injection Hgive as <-. simpl.
  destruct (findIndex_cases (keyDataIs isEqual itemKey data) (_inventory w))
    as [[E Hnone]|(i & s & E & Hi & Hs & _)]; rewrite E; simpl.
  - split; [by apply unique_stacks_snoc|]. split.
    + intros (s & Hin & Hs). rewrite (Hnone s Hin) in Hs. discriminate.
    + intros _. rewrite map_app. reflexivity.
  - assert (negb (Z.of_nat i =? -1) = true) as ->.
    { apply negb_true_iff, Z.eqb_neq. lia. }
    split; [|split].
    + apply (unique_stacks_key_data (_inventory w)); [|exact Huniq].
      symmetry. apply map_key_data_alter.
    + intros _. apply map_key_data_alter.
    + intros Hnone. rewrite (Hnone s) in Hs; [discriminate|].
      eapply list_elem_of_lookup_2; eauto.
Qed.

End Uniqueness.

(** ** The structural comparison [deepEqual] *)


Lemma Qeq_bool_comm x y : Qeq_bool x y = Qeq_bool y x.
Proof.
  apply eq_true_iff_eq. rewrite !Qeq_bool_iff. split; intros H; by symmetry.
Qed.

Lemma deepEqual_refl d : deepEqual d d = true.
Proof.
  induction d as [| |b|q| |s|s|elems IH|props IH] using jsval_nested_ind;
    simpl; try reflexivity.
  - by destruct b.
  - apply Qeq_bool_iff. reflexivity.
  - by destruct s.
  - apply String.eqb_refl.
  - induction IH as [|x l Hx _ IHl]; [reflexivity|]. by rewrite Hx, IHl.
  - induction IH as [|[k x] l Hx _ IHl]; [reflexivity|].
    simpl in Hx. by rewrite String.eqb_refl, Hx, IHl.
Qed.

Lemma deepEqual_sym a b : deepEqual a b = deepEqual b a.
Proof.
  revert b.
  induction a as [| |x|x| |x|x|elems IH|props IH] using jsval_nested_ind;
    intros [| |y|y| |y|y|ys|ys]; simpl; try reflexivity.
  - by destruct x, y.
  - apply Qeq_bool_comm.
  - by destruct x, y.
  - apply String.eqb_sym.
  - revert ys. induction IH as [|x l Hx _ IHl]; intros [|y ys];
      try reflexivity.
    by rewrite Hx, IHl.
  - revert ys. induction IH as [|[k x] l Hx _ IHl]; intros [|[k' y] ys];
      try reflexivity.
    simpl in Hx. by rewrite String.eqb_sym, Hx, IHl.
Qed.

(** ** The properties on the small registry *)

Lemma medkit_registry_eq :
  medkit_registry =
  mkScript
    {[ "item_medkit" := ItemDef.mk "Medkit" "Heals 10 HP" (Some consume)
                          None None ]} None.
Proof. reflexivity. Qed.

Lemma medkit_registry_getItem key def :
  getItem medkit_registry key = Some def ->
  key = "item_medkit" /\ ItemDef.onUse def = Some consume.
Proof.
  rewrite medkit_registry_eq. unfold getItem, own_property. simpl.
  destruct (decide (key = "__proto__")); [discriminate|].
  destruct (_ !! key) eqn:E; [|discriminate].
  apply lookup_singleton_Some in E as [<- <-].
  intros [= <-]. split; reflexivity.
Qed.

Lemma medkit_hooks_preserve :
  hooks_preserve amounts_positive medkit_registry.
Proof.
  intros key def f Hdef Hf index key' data w Hw.
  apply medkit_registry_getItem in Hdef as [_ Hc].
  rewrite Hc in Hf. injection Hf as <-.
  unfold consume. apply removeItem_amounts_positive. exact Hw.
Qed.

Lemma two_stacks_safe n :
  0 <= n <= 1000 -> within_safe_range (_inventory two_stacks) n.
Proof.
  intros Hn. split.
  - intros s Hs.
    apply elem_of_cons in Hs as [->|Hs]; [simpl; eauto|].
    apply elem_of_cons in Hs as [->|Hs]; [simpl; eauto|].
    inversion Hs.
  - change (n + 5 <= two53). unfold two53. lia.
Qed.



Lemma removeItem_at_index_witness :
  exists w',
    removeItem (JInt 1) (JInt 3) two_stacks = (true, w') /\
    _inventory w' = [plain_medkits] /\
    emitted w' =
      [itemRemoved 7 1 "item_medkit" 3 (JObj [("hp", JInt 30)]);
       itemRemovedCompletely 7 "item_medkit" (JObj [("hp", JInt 30)])].
Proof.
  destruct (removeItem_at_index (JInt 1) (JInt 3) 1%nat strong_medkits 3
              two_stacks)
    as (w' & Hremove & _ & Hgone & _).
  - apply (number_is_JInt 1).
  - reflexivity.
  - apply number_is_JInt.
  - lia.
  - exists w'. split; [exact Hremove|]. apply Hgone. reflexivity.
Defined.

(** The claim C2 as the specification states it fails: a [removeItem] of
    one unit from a stack of 2^53 + 2 units leaves 2^53 units, two fewer,
    because 2^53 + 1 is not a double. *)
Lemma removeItem_beyond_safe_range :
  removeItem (JInt 0) (JInt 1)
    (mkWorld 7 [Stack.mk "item_medkit" (Fin 9007199254740994) JUndefined] [])
  = (true,
     mkWorld 7 [Stack.mk "item_medkit" (Fin 9007199254740992) JUndefined]
       [itemRemoved 7 0 "item_medkit" 1 JUndefined]).
Proof. vm_compute. reflexivity. Qed.

(** The claim C3 as the specification states it fails: [setInventory] takes
    any array, so a stack with amount 0 is in the inventory after a single
    call. *)
Lemma setInventory_admits_zero_amount :
  ~ amounts_positive
      (_inventory
         (run deepEqual newInventoryScript
            [CallSetInventory
               (IsArray [Stack.mk "item_medkit" (Fin 0) JUndefined])]
            (playerJoin 7 []))).
Proof.
  intros H. specialize (H (Stack.mk "item_medkit" (Fin 0) JUndefined)).
  simpl in H. assert (num_le (Fin 1) (Fin 0)) as Habs; [|discriminate].
  apply H. left.
Qed.

Lemma amounts_stay_positive_witness :
  amounts_positive
    (_inventory
       (run deepEqual medkit_registry
          [CallGiveItem "item_medkit" (JInt 2) JUndefined;
           CallUseItem (JInt 0);
           CallSetInventory (IsArray [plain_medkits; strong_medkits]);
           CallRemoveItem (JInt 1) (JInt 5);
           CallRemoveItem (JInt 0) JUndefined]
          (playerJoin 7 []))).
Proof.
  apply (amounts_stay_positive deepEqual medkit_registry).
  - exact medkit_hooks_preserve.
  - repeat constructor.
    intros s Hs. simpl.
    apply elem_of_cons in Hs as [->|Hs]; [reflexivity|].
    apply elem_of_cons in Hs as [->|Hs]; [reflexivity|].
    inversion Hs.
Defined.

(** C4 (what the code does).  Once an item with the key "hasOwnProperty"
    is registered, [hasItem] throws, and so does [giveItem] before it looks
    at the amount: for the amount 0 it does not return false.  The player is
    left as it was.  With the registry of one medkit the same call does
    return false. *)
Theorem giveItem_throws_after_shadowing :
  hasItem shadowed_registry "item_medkit" = Throw TypeError /\
  giveItem deepEqual shadowed_registry "item_medkit" (JInt 0) JUndefined
    two_stacks = (Throw TypeError, two_stacks) /\
  giveItem deepEqual medkit_registry "item_medkit" (JInt 0) JUndefined
    two_stacks = (Return false, two_stacks).
Proof.
  split; [reflexivity|]. split.
  - apply giveItem_throws. reflexivity.
  - apply (giveItem_returns_false _ _ _ _ _ _ true); [reflexivity|].
    right. intros (n & Hn & Hpos).
    apply number_is_spec in Hn as [_ Hval]. vm_compute in Hval. lia.
Qed.

(** C5 (what the code does).  Registering the key "hasOwnProperty" twice:
    the first call stores the definition, the second throws a TypeError
    where null was to be returned.  Registering the key "__proto__" twice:
    both calls return a definition and both emit [itemDefined], and the key
    is not registered after either. *)
Theorem addItem_twice_special_keys :
  (exists def self1 log1,
      addItem (JStr "hasOwnProperty") (JStr "Helper") (JStr "") None None
        None medkit_registry [] = (Return (Some def), self1, log1) /\
      addItem (JStr "hasOwnProperty") (JStr "Helper") (JStr "") None None
        None self1 log1 = (Throw TypeError, self1, log1)) /\
  (exists def1 self1 def2 self2,
      addItem (JStr "__proto__") (JStr "First") (JStr "") None None None
        medkit_registry [] =
        (Return (Some def1), self1, [itemDefined "__proto__" "First" ""]) /\
      hasItem self1 "__proto__" = Return false /\
      addItem (JStr "__proto__") (JStr "Second") (JStr "") None None None
        self1 [itemDefined "__proto__" "First" ""] =
        (Return (Some def2), self2,
         [itemDefined "__proto__" "First" "";
          itemDefined "__proto__" "Second" ""]) /\
      getItem self2 "__proto__" = Some def2 /\
      ItemDef.name def2 = "Second").
Proof.
  split.
  - eexists _, _, _. split; reflexivity.
  - eexists _, _, _, _. repeat split.
Qed.

Lemma useItem_frame_witness :
  useItem newInventoryScript (JInt 1) two_stacks =
  (true,
   mkWorld 7 [plain_medkits; strong_medkits]
     [itemUsed 7 1 "item_medkit" (JObj [("hp", JInt 30)])]) /\
  useItem newInventoryScript (JInt 2) two_stacks = (false, two_stacks).
Proof.
  destruct (useItem_frame newInventoryScript (JInt 1) two_stacks)
    as [Hused _].
  destruct (Hused 1%nat strong_medkits) as [_ Hframe].
  - apply (number_is_JInt 1).
  - reflexivity.
  - split.
    + apply Hframe. intros def Hdef. discriminate.
    + apply (useItem_frame newInventoryScript (JInt 2) two_stacks).
      intros i Hi.
      assert (2 = Z.of_nat i) as Hi2
        by exact (number_is_inj _ _ _ (number_is_JInt 2) Hi).
      assert (i = 2%nat) as -> by lia. reflexivity.
Defined.

Lemma useItem_unregistered_key_witness :
  exists w',
    useItem medkit_registry (JInt 0) (mkWorld 7 [unknown_item] []) =
      (true, w') /\
    w' = mkWorld 7 [unknown_item] [itemUsed 7 0 "item_unknown" JNull].
Proof.
  destruct (useItem_unregistered_key medkit_registry (JInt 0) 0%nat
              unknown_item (mkWorld 7 [unknown_item] []))
    as (w' & Huse & _ & Hsame).
  - apply (number_is_JInt 0).
  - reflexivity.
  - vm_compute. reflexivity.
  - exists w'. split; [exact Huse|]. apply Hsame. discriminate.
Defined.

Lemma two_stacks_unique : unique_stacks deepEqual (_inventory two_stacks).
Proof.
  intros [|[|i]] [|[|j]] si sj Hij Hi Hj [_ Hdata]; simpl in *;
    try contradiction; try discriminate.
  - injection Hi as <-. injection Hj as <-. vm_compute in Hdata.
    discriminate.
  - injection Hi as <-. injection Hj as <-. vm_compute in Hdata.
    discriminate.
Qed.

Lemma giveItem_keeps_stacks_unique_witness :
  exists w',
    giveItem deepEqual medkit_registry "item_medkit" (JInt 4)
      (JObj [("hp", JInt 30)]) two_stacks = (Return true, w') /\
    unique_stacks deepEqual (_inventory w') /\
    length (_inventory w') = 2%nat.
Proof.
  destruct (giveItem deepEqual medkit_registry "item_medkit" (JInt 4)
              (JObj [("hp", JInt 30)]) two_stacks) as [r w'] eqn:Hgive.
  assert (r = Return true) as -> by (vm_compute in Hgive; congruence).
  exists w'. split; [reflexivity|].
  destruct (giveItem_keeps_stacks_unique deepEqual medkit_registry
              deepEqual_sym "item_medkit" (JInt 4) (JObj [("hp", JInt 30)])
              two_stacks w' two_stacks_unique Hgive) as (Huniq & Hsame & _).
  split; [exact Huniq|].
  rewrite <- (length_map key_data), Hsame; [reflexivity|].
  exists strong_medkits. split; [|vm_compute; reflexivity].
  right. left.
Defined.

(** * Further properties *)

(** ** Queries *)

Lemma findIndex_range {A} (p : A -> bool) (arr : list A) :
  -1 <= findIndex p arr < Z.of_nat (length arr).
Proof.
  destruct (findIndex_cases p arr) as [[-> _]|(i & x & -> & Hi & _)].
  - lia.
  - apply lookup_lt_Some in Hi. lia.
Qed.

Lemma findIndex_weaken {A} (p q : A -> bool) (arr : list A) :
  (forall x, p x = true -> q x = true) ->
  findIndex p arr <> -1 ->
  0 <= findIndex q arr <= findIndex p arr.
Proof.
  intros Hpq Hp.
  destruct (findIndex_cases p arr) as [[E _]|(i & x & Ei & Hi & Hx & _)];
    [contradiction|].
  destruct (findIndex_cases q arr)
    as [[_ Hnone]|(j & y & Ej & Hj & _ & Hfirst)].
  - specialize (Hpq x Hx). rewrite (Hnone x) in Hpq; [discriminate|].
    eapply list_elem_of_lookup_2; eauto.
  - rewrite Ei, Ej. split; [lia|].
    destruct (Nat.le_gt_cases j i) as [Hle|Hgt]; [lia|].
    specialize (Hpq x Hx). rewrite (Hfirst _ _ Hgt Hi) in Hpq.
    discriminate.
Qed.

Section Queries.

Variable isEqual : jsval -> jsval -> bool.
Variable inventoryScript : InventoryScript.

Lemma keyDataIs_keyIs itemKey data s :
  keyDataIs isEqual itemKey data s = true -> keyIs itemKey s = true.
Proof. unfold keyDataIs, keyIs. by intros [H _]%andb_true_iff. Qed.

(** X1.  A player who has an item with some data has the item: when
    [hasItemWithData] is true so is the player's [hasItem], and
    [getItemIndex] is a valid index not after [getItemIndexWithData]. *)
Theorem hasItemWithData_hasItem itemKey data w :
  fst (hasItemWithData isEqual itemKey data w) = true ->
  fst (playerHasItem itemKey w) = true /\
  0 <= fst (getItemIndex itemKey w)
    <= fst (getItemIndexWithData isEqual itemKey data w) /\
  fst (getItemIndexWithData isEqual itemKey data w)
    < Z.of_nat (length (_inventory w)).
Proof.
  unfold hasItemWithData, playerHasItem, getItemIndex, getItemIndexWithData.
  simpl. intros H. apply negb_true_iff, Z.eqb_neq in H.
  pose proof (findIndex_weaken _ (keyIs itemKey) (_inventory w)
                (keyDataIs_keyIs itemKey data) H) as Hle.
  pose proof (findIndex_range (keyDataIs isEqual itemKey data)
                (_inventory w)) as Hr.
  split; [|lia].
  apply negb_true_iff, Z.eqb_neq. lia.
Qed.

(** X2.  An index found by [getItemIndex] can be used right away: it is the
    first index whose stack has the key, [useItem] at it returns true with
    [itemUsed] for that key as its last event, and [removeItem] at it
    (amount left out) returns true. *)
Theorem found_index_is_usable itemKey w :
  fst (getItemIndex itemKey w) <> -1 ->
  exists i s w1 w2,
    fst (getItemIndex itemKey w) = Z.of_nat i /\
    _inventory w !! i = Some s /\ Stack.key s = itemKey /\
    (forall j s', (j < i)%nat -> _inventory w !! j = Some s' ->
                  Stack.key s' <> itemKey) /\
    useItem inventoryScript (JInt (fst (getItemIndex itemKey w))) w
      = (true, w1) /\
    last (emitted w1) =
      Some (itemUsed (actor w) (Z.of_nat i) itemKey (Stack.data s)) /\
    removeItem (JInt (fst (getItemIndex itemKey w))) JUndefined w
      = (true, w2).
Proof.
  unfold getItemIndex. simpl. intros Hfound.
  destruct (findIndex_cases (keyIs itemKey) (_inventory w))
    as [[E _]|(i & s & E & Hi & Hs & Hfirst)]; [contradiction|].
  rewrite E. apply keyIs_true in Hs.
  exists i, s. eexists _, _.
  split; [reflexivity|]. split; [exact Hi|]. split; [exact Hs|].
  split; [intros j s' Hj Hs'; apply keyIs_false; eauto|].
  split; [apply (useItem_success _ _ _ _ _ (number_is_JInt _) Hi)|].
  split; [simpl; rewrite Hs; apply last_snoc|].
  rewrite removeItem_default.
  apply (removeItem_success _ _ _ _ _ (number_is_JInt _) Hi). reflexivity.
Qed.

Lemma amounts_positive_nonneg arr s :
  amounts_positive arr -> s ∈ arr -> num_le (Fin 0) (Stack.amount s).
Proof.
  intros Hpos Hs. apply (num_le_trans _ (Fin 1)); [reflexivity|].
  by apply Hpos.
Qed.

(** X3.  When every stack holds at least one unit, the three amounts are
    ordered: 0 <= [getItemAmountWithData key data] <= [getItemAmount key]
    <= [getTotalItemAmount]. *)
Theorem amounts_ordered itemKey data w :
  amounts_positive (_inventory w) ->
  (num_le (Fin 0) (fst (getItemAmountWithData isEqual itemKey data w)) /\
   num_le (fst (getItemAmountWithData isEqual itemKey data w))
     (fst (getItemAmount itemKey w))) /\
  num_le (fst (getItemAmount itemKey w)) (fst (getTotalItemAmount w)).
Proof.
  intros Hpos. unfold getItemAmountWithData, getItemAmount,
    getTotalItemAmount. cbn [fst].
  pose proof (fun s => amounts_positive_nonneg _ s Hpos) as Hnn.
  repeat split.
  - apply num_fold_ge; [|unfold two53; lia|reflexivity].
    intros s Hs. destruct (keyDataIs _ _ _ s); [by apply Hnn|reflexivity].
  - apply num_fold_le; [|reflexivity..].
    intros s Hs. specialize (Hnn s Hs).
    assert (Hrefl : num_le (Stack.amount s) (Stack.amount s))
      by (apply num_le_refl; by apply (num_le_not_NaN (Fin 0))).
    destruct (keyDataIs isEqual itemKey data s) eqn:E.
    + rewrite (keyDataIs_keyIs _ _ _ E). by split.
    + destruct (keyIs itemKey s); split; try reflexivity; exact Hnn.
  - apply (num_fold_le _ Stack.amount); [|reflexivity..].
    intros s Hs. specialize (Hnn s Hs).
    assert (Hrefl : num_le (Stack.amount s) (Stack.amount s))
      by (apply num_le_refl; by apply (num_le_not_NaN (Fin 0))).
    destruct (keyIs itemKey s); split; try reflexivity; assumption.
Qed.

(** X4.  A player without a stack of the key has amount 0 of it and index
    -1; when every stack holds at least one unit the converse holds too, so
    [getItemAmount key] is 0 exactly when the player's [hasItem key] is
    false. *)
Theorem getItemAmount_zero itemKey w :
  (fst (playerHasItem itemKey w) = false ->
   fst (getItemIndex itemKey w) = -1 /\
   fst (getItemAmount itemKey w) = Fin 0) /\
  (amounts_positive (_inventory w) ->
   fst (getItemAmount itemKey w) = Fin 0 ->
   fst (playerHasItem itemKey w) = false).
Proof.
  unfold playerHasItem, getItemIndex, getItemAmount. cbn [fst]. split.
  - intros H. apply negb_false_iff, Z.eqb_eq in H. split; [exact H|].
    apply num_fold_zero; [|reflexivity]. intros s Hs.
    rewrite findIndex_none in H. by rewrite (H s Hs).
  - intros Hpos Hzero. apply negb_false_iff, Z.eqb_eq, findIndex_none.
    intros s Hs. destruct (keyIs itemKey s) eqn:E; [|reflexivity].
    exfalso.
    assert (Hone : num_le (Fin 1)
              (fold_left
                 (fun total item =>
                    num_add total
                      (if keyIs itemKey item then Stack.amount item
                       else Fin 0))
                 (_inventory w) (Fin 0))).
    { apply (num_fold_ge_elem _ _ s).
      - intros y Hy. destruct (keyIs itemKey y); [|reflexivity].
        by apply (amounts_positive_nonneg (_inventory w)).
      - exact Hs.
      - rewrite E. by apply Hpos. }
    rewrite Hzero in Hone. discriminate.
Qed.

(** X5.  When every stack holds at least one unit, [getTotalItemAmount] is
    at least the number of stacks, counted up to 2^53 (where a sum of ones
    stops growing; a JavaScript array has fewer than 2^32 elements); in
    particular it is 0 only for the empty inventory. *)
Theorem total_at_least_length w :
  amounts_positive (_inventory w) ->
  num_le (Fin (Z.min (Z.of_nat (length (_inventory w))) two53))
    (fst (getTotalItemAmount w)) /\
  (fst (getTotalItemAmount w) = Fin 0 -> _inventory w = []).
Proof.
  intros Hpos. unfold getTotalItemAmount. cbn [fst].
  assert (H : num_le (Fin (Z.min (Z.of_nat (length (_inventory w))) two53))
                (fold_left
                   (fun total item => num_add total (Stack.amount item))
                   (_inventory w) (Fin 0))).
  { apply (num_fold_ge_length Stack.amount (_inventory w) (Fin 0) 0);
      [exact Hpos | unfold two53; lia | reflexivity]. }
  split; [exact H|]. intros Hzero. rewrite Hzero in H.
  apply num_le_Fin in H.
  destruct (_inventory w); [reflexivity|].
  cbn [length] in H. unfold two53 in H. lia.
Qed.

End Queries.

(** ** Arrays, continued *)

Lemma findIndex_app {A} (p : A -> bool) (l1 l2 : list A) :
  findIndex p (l1 ++ l2) =
  if findIndex p l1 =? -1 then
    if findIndex p l2 =? -1 then -1
    else Z.of_nat (length l1) + findIndex p l2
  else findIndex p l1.
Proof.
  destruct (findIndex_cases p l1) as [[E1 H1]|(i & x & E1 & Hi & Hx & Hf)];
    rewrite E1.
  - simpl.
    destruct (findIndex_cases p l2) as [[E2 H2]|(j & y & E2 & Hj & Hy & Hg)];
      rewrite E2.
    + simpl. apply findIndex_none. intros z Hz.
      apply elem_of_app in Hz as [Hz|Hz]; auto.
    + assert ((Z.of_nat j =? -1) = false) as -> by (apply Z.eqb_neq; lia).
      rewrite <- Nat2Z.inj_add.
      apply (findIndex_found p _ _ y).
      * rewrite lookup_app_r by lia.
        replace (length l1 + j - length l1)%nat with j by lia. exact Hj.
      * exact Hy.
      * intros k z Hk Hz. apply lookup_app_Some in Hz as [Hz|[Hlen Hz]].
        -- apply H1. eapply list_elem_of_lookup_2; eauto.
        -- apply (Hg (k - length l1)%nat); [lia | exact Hz].
  - assert ((Z.of_nat i =? -1) = false) as -> by (apply Z.eqb_neq; lia).
    apply (findIndex_found p _ _ x).
    + apply lookup_app_l_Some. exact Hi.
    + exact Hx.
    + intros k z Hk Hz. apply (Hf k); [exact Hk|].
      rewrite lookup_app_l in Hz; [exact Hz|].
      apply lookup_lt_Some in Hi. lia.
Qed.

Lemma findIndex_alter {A} (p : A -> bool) (g : A -> A) (l : list A) i :
  (forall x, p (g x) = p x) ->
  findIndex p (alter g i l) = findIndex p l.
Proof.
  intros Hg.
  assert (Hlook : forall j y, alter g i l !! j = Some y ->
            exists x, l !! j = Some x /\ p y = p x).
  { intros j y. rewrite list_lookup_alter.
    destruct (decide (i = j)) as [->|Hne].
    - destruct (l !! j) as [x|]; [|discriminate].
      intros [= <-]. exists x. split; [reflexivity | apply Hg].
    - intros Hy. exists y. split; [exact Hy | reflexivity]. }
  destruct (findIndex_cases p l) as [[E Hnone]|(k & x & E & Hk & Hx & Hf)];
    rewrite E.
  - apply findIndex_none. intros y Hy.
    apply list_elem_of_lookup_1 in Hy as [j Hj].
    destruct (Hlook _ _ Hj) as (x & Hx & ->).
    apply Hnone. eapply list_elem_of_lookup_2; eauto.
  - assert (exists y, alter g i l !! k = Some y /\ p y = true)
      as (y & Hy & Hpy).
    { rewrite list_lookup_alter. destruct (decide (i = k)) as [->|Hne].
      - rewrite Hk. exists (g x). split; [reflexivity|]. by rewrite Hg.
      - exists x. split; assumption. }
    apply (findIndex_found p _ _ y Hy Hpy).
    intros j z Hj Hz. destruct (Hlook _ _ Hz) as (x' & Hx' & ->).
    by apply (Hf j).
Qed.

Lemma alter_addAmount_back d (i : nat) (arr : list Stack.t) s :
  arr !! i = Some s ->
  num_add (num_add (Stack.amount s) (Fin d)) (Fin (- d)) = Stack.amount s ->
  alter (addAmount (- d)) i (alter (addAmount d) i arr) = arr.
Proof.
  revert i. induction arr as [|x arr IH]; intros [|i] Hi Hback; simpl in *;
    try discriminate.
  - injection Hi as ->. f_equal. destruct s as [k a dt].
    unfold addAmount. cbn [Stack.key Stack.amount Stack.data] in *.
    by rewrite Hback.
  - f_equal. by apply IH.
Qed.

Lemma num_fold_alter {A} (f : A -> number) (g : A -> A) (l : list A) i x a :
  l !! i = Some x -> f (g x) = f x ->
  fold_left (fun total item => num_add total (f item)) (alter g i l) a =
  fold_left (fun total item => num_add total (f item)) l a.
Proof.
  intros Hi Hf. rewrite (alter_take_drop _ _ _ _ Hi).
  rewrite <- (take_drop_middle _ _ _ Hi) at 3.
  rewrite !fold_left_app. cbn [fold_left]. by rewrite Hf.
Qed.

Lemma num_fold_delete {A} (f : A -> number) (l : list A) i x :
  l !! i = Some x -> f x = Fin 0 ->
  fold_left (fun total item => num_add total (f item)) (delete i l) (Fin 0) =
  fold_left (fun total item => num_add total (f item)) l (Fin 0).
Proof.
  intros Hi Hf. rewrite delete_take_drop.
  rewrite <- (take_drop_middle _ _ _ Hi) at 3.
  rewrite !fold_left_app. cbn [fold_left].
  rewrite Hf, num_add_0_r; [reflexivity|].
  apply num_fold_is_double. reflexivity.
Qed.

Lemma num_fold_snoc {A} (f : A -> number) (l : list A) x :
  f x = Fin 0 ->
  fold_left (fun total item => num_add total (f item)) (l ++ [x]) (Fin 0) =
  fold_left (fun total item => num_add total (f item)) l (Fin 0).
Proof.
  intros Hf. rewrite fold_left_app. cbn [fold_left].
  rewrite Hf, num_add_0_r; [reflexivity|].
  apply num_fold_is_double. reflexivity.
Qed.

(** A difference below 1 is rounded to a number below 1. *)
Lemma num_add_lt_1 x y :
  x + y < 1 -> num_ltb (num_add (Fin x) (Fin y)) (Fin 1) = true.
Proof.
  intros H. pose proof (round_mono (x + y) 0 ltac:(lia)) as Hle.
  change (round 0) with (Fin 0) in Hle. cbn [num_add].
  destruct (round (x + y)) as [z| | |]; simpl in *; try reflexivity;
    try discriminate.
  apply Z.leb_le in Hle. apply Z.ltb_lt. lia.
Qed.

Lemma delete_snoc {A} (l : list A) x : delete (length l) (l ++ [x]) = l.
Proof.
  induction l as [|y l IH]; simpl; [reflexivity|]. f_equal. exact IH.
Qed.

(** ** Giving, continued *)

Section Giving.

Variable isEqual : jsval -> jsval -> bool.
Variable inventoryScript : InventoryScript.

(** Structural equality relates every value to itself. *)
Hypothesis isEqual_refl : forall d, isEqual d d = true.

Local Abbreviation giveItem := (giveItem isEqual inventoryScript).

(** The inventory after a [giveItem] that returned true. *)
Lemma giveItem_true itemKey amount data w w' :
  giveItem itemKey amount data w = (Return true, w') ->
  0 < integerValue amount /\
  actor w' = actor w /\
  emitted w' =
    emitted w ++ [itemAdded (actor w) itemKey (integerValue amount) data] /\
  ((findIndex (keyDataIs isEqual itemKey data) (_inventory w) = -1 /\
    _inventory w' =
      _inventory w ++ [Stack.mk itemKey (Fin (integerValue amount)) data]) \/
   (exists i s,
       findIndex (keyDataIs isEqual itemKey data) (_inventory w)
         = Z.of_nat i /\
       _inventory w !! i = Some s /\
       keyDataIs isEqual itemKey data s = true /\
       _inventory w' =
         alter (addAmount (integerValue amount)) i (_inventory w))).
Proof.
  intros Hgive.
  destruct (giveItem_cases isEqual inventoryScript itemKey amount data w)
    as [(e & _ & He)|[He|[Hh Hg]]];
    [rewrite He in Hgive; discriminate..|].
  rewrite (giveItem_success _ _ _ _ _ _ Hh Hg) in Hgive.
  injection Hgive as <-. simpl.
  apply andb_true_iff in Hg as [_ Hpos]. apply Z.ltb_lt in Hpos.
  repeat split; try assumption.
  destruct (findIndex_cases (keyDataIs isEqual itemKey data) (_inventory w))
    as [[E _]|(i & s & E & Hi & Hs & _)]; rewrite E.
  - left. split; reflexivity.
  - right. exists i, s.
    assert (negb (Z.of_nat i =? -1) = true) as ->.
    { apply negb_true_iff, Z.eqb_neq. lia. }
    rewrite Nat2Z.id. repeat split; assumption.
Qed.

(** X6.  A [giveItem] that returns true for the key [k] leaves every other
    key alone: for a key [k'] other than [k] the amounts (with and without
    data), the indices and the player's [hasItem] are what they were.  To
    [getItemAmount k] it adds exactly the given amount when the amounts of
    the inventory are integers whose magnitudes, added to the given amount,
    do not exceed 2^53. *)
Theorem giveItem_other_keys itemKey amount data w w' :
  giveItem itemKey amount data w = (Return true, w') ->
  (within_safe_range (_inventory w) (integerValue amount) ->
   exists a,
     fst (getItemAmount itemKey w) = Fin a /\
     fst (getItemAmount itemKey w') = Fin (a + integerValue amount)) /\
  forall k', k' <> itemKey ->
    fst (getItemAmount k' w') = fst (getItemAmount k' w) /\
    fst (getItemIndex k' w') = fst (getItemIndex k' w) /\
    fst (playerHasItem k' w') = fst (playerHasItem k' w) /\
    forall d',
      fst (getItemAmountWithData isEqual k' d' w') =
        fst (getItemAmountWithData isEqual k' d' w) /\
      fst (getItemIndexWithData isEqual k' d' w') =
        fst (getItemIndexWithData isEqual k' d' w).
Proof.
  intros Hgive.
  destruct (giveItem_true _ _ _ _ _ Hgive)
    as (Hpos & _ & _ & [[_ Hinv]|(i & s & _ & Hi & Hs & Hinv)]);
    unfold getItemAmount, getItemIndex, playerHasItem,
      getItemAmountWithData, getItemIndexWithData; cbn [fst]; rewrite Hinv.
  - split.
    + intros Hsafe.
      pose proof (within_safe_range_snoc _ itemKey _ data Hsafe ltac:(lia))
        as Hsafe'.
      rewrite (safe_sum _ _ _ Hsafe'), (safe_sum _ _ _ Hsafe) by lia.
      eexists. split; [reflexivity|]. f_equal.
      rewrite sum_fold_app. simpl.
      rewrite (proj2 (keyIs_true itemKey _)) by reflexivity. simpl. lia.
    + intros k' Hk'.
      assert (keyIs k' (Stack.mk itemKey (Fin (integerValue amount)) data)
              = false)
        as Hno by (apply keyIs_false; simpl; congruence).
      assert (forall d',
                keyDataIs isEqual k' d'
                  (Stack.mk itemKey (Fin (integerValue amount)) data) = false)
        as Hno'.
      { intros d'. unfold keyDataIs. simpl.
        rewrite bool_decide_eq_false_2 by congruence. reflexivity. }
      assert (Hidx : forall p : Stack.t -> bool,
                p (Stack.mk itemKey (Fin (integerValue amount)) data) = false ->
                findIndex p
                  (_inventory w
                     ++ [Stack.mk itemKey (Fin (integerValue amount)) data])
                = findIndex p (_inventory w)).
      { intros p Hp. rewrite findIndex_app.
        assert (findIndex p
                  [Stack.mk itemKey (Fin (integerValue amount)) data]
                = -1) as ->.
        { apply findIndex_none. intros x Hx.
          apply list_elem_of_singleton in Hx as ->. exact Hp. }
        simpl. destruct (findIndex p (_inventory w) =? -1) eqn:E;
          [apply Z.eqb_eq in E; congruence | reflexivity]. }
      rewrite (Hidx _ Hno).
      split; [apply num_fold_snoc; by rewrite Hno|].
      split; [reflexivity|]. split; [reflexivity|].
      intros d'. split; [apply num_fold_snoc; by rewrite Hno'|].
      apply Hidx, Hno'.
  - apply keyDataIs_keyIs in Hs as Hk. split.
    + intros Hsafe.
      destruct (safe_amount _ _ _ Hsafe (list_elem_of_lookup_2 _ _ _ Hi))
        as (a & Ha & Hbound).
      destruct (within_safe_range_alter _ i s a (integerValue amount)
                  (integerValue amount) 0 Hi Ha Hsafe)
        as [Hsum Hsafe']; [lia | lia |].
      rewrite (safe_sum _ _ _ Hsafe'), (safe_sum _ _ _ Hsafe) by lia.
      eexists. split; [reflexivity|]. f_equal.
      rewrite
        (sum_fold_alter
           (fun item =>
              if keyIs itemKey item then value (Stack.amount item) else 0)
           _ _ _ _ Hi).
      change (keyIs itemKey (addAmount (integerValue amount) s))
        with (keyIs itemKey s).
      rewrite Hk. unfold addAmount. cbn [Stack.amount].
      rewrite Ha, Hsum. simpl. lia.
    + intros k' Hk'.
      assert (keyIs k' s = false) as Hno.
      { apply keyIs_false. apply keyIs_true in Hk. congruence. }
      rewrite (findIndex_alter (keyIs k')) by reflexivity.
      split.
      { apply (num_fold_alter _ _ _ _ _ _ Hi).
        change (keyIs k' (addAmount (integerValue amount) s))
          with (keyIs k' s).
        by rewrite Hno. }
      split; [reflexivity|]. split; [reflexivity|].
      intros d'. split; [|apply findIndex_alter; reflexivity].
      apply (num_fold_alter _ _ _ _ _ _ Hi).
      change (keyDataIs isEqual k' d' (addAmount (integerValue amount) s))
        with (keyDataIs isEqual k' d' s).
      assert (keyDataIs isEqual k' d' s = false) as ->; [|reflexivity].
      destruct (keyDataIs isEqual k' d' s) eqn:E; [|reflexivity].
      apply keyDataIs_keyIs in E. congruence.
Qed.

(** X7.  Giving the same key and data twice merges into one stack: after a
    [giveItem] that returned true, [getItemIndexWithData] finds a stack for
    that key and data, and a further [giveItem] with the same key and data
    that returns true keeps the number of stacks and that index. *)
Theorem giveItem_twice_merges itemKey amount data w w1 :
  giveItem itemKey amount data w = (Return true, w1) ->
  exists i,
    fst (getItemIndexWithData isEqual itemKey data w1) = Z.of_nat i /\
    (i < length (_inventory w1))%nat /\
    forall amount2 w2,
      giveItem itemKey amount2 data w1 = (Return true, w2) ->
      length (_inventory w2) = length (_inventory w1) /\
      fst (getItemIndexWithData isEqual itemKey data w2) = Z.of_nat i.
Proof.
  intros Hgive. unfold getItemIndexWithData. simpl.
  assert (exists i,
    findIndex (keyDataIs isEqual itemKey data) (_inventory w1) = Z.of_nat i)
    as [i Hi].
  { destruct (giveItem_true _ _ _ _ _ Hgive)
      as (_ & _ & _ & [[E Hinv]|(i & s & E & Hi & Hs & Hinv)]);
      rewrite Hinv.
    - exists (length (_inventory w)). rewrite findIndex_app, E. simpl.
      assert (findIndex (keyDataIs isEqual itemKey data)
                [Stack.mk itemKey (Fin (integerValue amount)) data] = 0)
        as ->.
      { apply (findIndex_found _ _ 0%nat
                 (Stack.mk itemKey (Fin (integerValue amount)) data)).
        - reflexivity.
        - unfold keyDataIs. simpl.
          rewrite bool_decide_eq_true_2 by reflexivity. apply isEqual_refl.
        - intros j y Hj. lia. }
      simpl. lia.
    - exists i. rewrite findIndex_alter by reflexivity. exact E. }
  exists i. split; [exact Hi|]. split.
  { pose proof (findIndex_range (keyDataIs isEqual itemKey data)
                  (_inventory w1)). lia. }
  intros amount2 w2 Hgive2.
  destruct (giveItem_true _ _ _ _ _ Hgive2)
    as (_ & _ & _ & [[E _]|(j & s & E & _ & _ & Hinv)]); [lia|].
  rewrite Hinv, length_alter, findIndex_alter by reflexivity.
  split; [reflexivity | exact Hi].
Qed.

(** X8.  Different data make different stacks: when the player has no stack
    of the key, giving the key with data [dataA] and then with data [dataB]
    that is not equal to [dataA] appends two stacks, and [getItemAmount] of
    the key (which ignores the data) is the sum of the two amounts when
    that sum does not exceed 2^53. *)
Theorem giveItem_distinct_data itemKey dataA dataB amountA amountB a b w :
  hasItem inventoryScript itemKey = Return true ->
  number_is amountA a -> 0 < a -> number_is amountB b -> 0 < b ->
  a + b <= two53 ->
  fst (playerHasItem itemKey w) = false ->
  isEqual dataA dataB = false ->
  exists w1 w2,
    giveItem itemKey amountA dataA w = (Return true, w1) /\
    giveItem itemKey amountB dataB w1 = (Return true, w2) /\
    _inventory w2 =
      _inventory w
        ++ [Stack.mk itemKey (Fin a) dataA; Stack.mk itemKey (Fin b) dataB] /\
    fst (getItemAmount itemKey w2) = Fin (a + b).
Proof.
  intros Hh Ha Hapos Hb Hbpos Hsafe Hnone Hdiff.
  assert (Hga : Number_isInteger amountA && (0 <? integerValue amountA)
                = true) by (apply amount_guard; eauto).
  assert (Hgb : Number_isInteger amountB && (0 <? integerValue amountB)
                = true) by (apply amount_guard; eauto).
  apply number_is_spec in Ha as [_ Ha], Hb as [_ Hb].
  unfold playerHasItem in Hnone. simpl in Hnone.
  apply negb_false_iff, Z.eqb_eq in Hnone.
  pose proof (proj1 (findIndex_none _ _) Hnone) as Hkeys.
  assert (Hnone' : forall d,
            findIndex (keyDataIs isEqual itemKey d) (_inventory w) = -1).
  { intros d. apply findIndex_none. intros s Hs.
    destruct (keyDataIs isEqual itemKey d s) eqn:E; [|reflexivity].
    apply keyDataIs_keyIs in E. rewrite (Hkeys s Hs) in E. discriminate. }
  eexists _, _.
  split; [apply (giveItem_success _ _ _ _ _ _ Hh Hga)|].
  split; [apply (giveItem_success _ _ _ _ _ _ Hh Hgb)|].
  assert (Hf : negb (-1 =? -1) = false) by reflexivity.
  assert (Hsecond :
    findIndex (keyDataIs isEqual itemKey dataB)
      (_inventory w ++ [Stack.mk itemKey (Fin (integerValue amountA)) dataA])
    = -1).
  { apply findIndex_none. intros x Hx.
    apply elem_of_app in Hx as [Hx|Hx].
    - apply (proj1 (findIndex_none _ _) (Hnone' dataB)). exact Hx.
    - apply list_elem_of_singleton in Hx as ->.
      unfold keyDataIs. simpl. rewrite Hdiff. apply andb_false_r. }
  cbn [_inventory]. rewrite (Hnone' dataA), Hf, Hsecond, Hf.
  rewrite Ha, Hb, <- app_assoc.
  split; [reflexivity|].
  unfold getItemAmount. cbn [fst _inventory].
  rewrite fold_left_app. cbn [app fold_left].
  rewrite !(proj2 (keyIs_true itemKey _)) by reflexivity.
  rewrite (num_fold_zero _ (_inventory w));
    [|by intros s Hs; rewrite (Hkeys s Hs)|reflexivity].
  cbn [Stack.amount].
  rewrite (num_add_Fin 0 a) by (simpl; lia).
  rewrite num_add_Fin by lia. reflexivity.
Qed.

End Giving.

(** ** Removing and using, continued *)

Lemma removed_units_min s n :
  1 <= value (Stack.amount s) -> 0 < n ->
  removed_units s n = Z.min n (value (Stack.amount s)).
Proof.
  intros Hs Hn. unfold removed_units.
  destruct (value (Stack.amount s) - n <? 1) eqn:E.
  - apply Z.ltb_lt in E. lia.
  - apply Z.ltb_ge in E. lia.
Qed.

Section Removing.

Variable isEqual : jsval -> jsval -> bool.
Variable inventoryScript : InventoryScript.

(** Structural equality relates every value to itself. *)
Hypothesis isEqual_refl : forall d, isEqual d d = true.

Local Abbreviation giveItem := (giveItem isEqual inventoryScript).
Local Abbreviation useItem := (useItem inventoryScript).

(** X9.  Giving and taking back: when every stack holds at least one unit
    and the amounts of the inventory are integers whose magnitudes, added
    to the given amount, do not exceed 2^53, a [giveItem] that returned
    true followed by [removeItem] of the same amount at the index
    [getItemIndexWithData] reports for the key and data leaves the
    inventory exactly as it was before the [giveItem]. *)
Theorem giveItem_removeItem_round_trip itemKey amount data w w1 :
  amounts_positive (_inventory w) ->
  within_safe_range (_inventory w) (integerValue amount) ->
  giveItem itemKey amount data w = (Return true, w1) ->
  exists w2,
    removeItem (JInt (fst (getItemIndexWithData isEqual itemKey data w1)))
      amount w1 = (true, w2) /\
    _inventory w2 = _inventory w.
Proof.
  intros Hpos Hsafe Hgive.
  assert (Hg : Number_isInteger amount && (0 <? integerValue amount) = true).
  { destruct (giveItem_cases isEqual inventoryScript itemKey amount data w)
      as [(e & _ & He)|[He|[_ Hg]]];
      [rewrite He in Hgive; discriminate..|exact Hg]. }
  unfold getItemIndexWithData. cbn [fst].
  destruct (giveItem_true _ _ _ _ _ _ _ Hgive)
    as (Hn & _ & _ & [[E Hinv]|(i & s & E & Hi & Hs & Hinv)]).
  - assert (findIndex (keyDataIs isEqual itemKey data) (_inventory w1)
            = Z.of_nat (length (_inventory w))) as ->.
    { rewrite Hinv, findIndex_app, E. simpl.
      assert (findIndex (keyDataIs isEqual itemKey data)
                [Stack.mk itemKey (Fin (integerValue amount)) data] = 0)
        as ->.
      { apply (findIndex_found _ _ 0%nat
                 (Stack.mk itemKey (Fin (integerValue amount)) data)).
        - reflexivity.
        - unfold keyDataIs. simpl.
          rewrite bool_decide_eq_true_2 by reflexivity. apply isEqual_refl.
        - intros j y Hj. lia. }
      simpl. lia. }
    eexists. split.
    + apply (removeItem_success _ _ _
               (Stack.mk itemKey (Fin (integerValue amount)) data) _
               (number_is_JInt _)); [|exact Hg].
      rewrite Hinv. apply list_lookup_middle. reflexivity.
    + unfold addAmount. cbn [Stack.amount].
      rewrite num_add_lt_1 by lia.
      cbn [_inventory]. rewrite Hinv. apply delete_snoc.
  - assert (findIndex (keyDataIs isEqual itemKey data) (_inventory w1)
            = Z.of_nat i) as ->.
    { rewrite Hinv, findIndex_alter by reflexivity. exact E. }
    pose proof (Hpos s (list_elem_of_lookup_2 _ _ _ Hi)) as Hs1.
    destruct (safe_amount _ _ _ Hsafe (list_elem_of_lookup_2 _ _ _ Hi))
      as (a & Ha & Hbound).
    rewrite Ha in Hs1. apply num_le_Fin in Hs1.
    assert (Hsum : num_add (Stack.amount s) (Fin (integerValue amount))
                   = Fin (a + integerValue amount))
      by (rewrite Ha; apply num_add_Fin; lia).
    assert (Hback : num_add (Fin (a + integerValue amount))
                      (Fin (- integerValue amount)) = Fin a).
    { rewrite num_add_Fin by lia. f_equal. lia. }
    eexists. split.
    + apply (removeItem_success _ _ _ (addAmount (integerValue amount) s) _
               (number_is_JInt _)); [|exact Hg].
      rewrite Hinv, list_lookup_alter, decide_True, Hi by reflexivity.
      reflexivity.
    + unfold addAmount at 1 2. cbn [Stack.amount].
      rewrite Hsum, Hback.
      assert (num_ltb (Fin a) (Fin 1) = false) as ->
        by (apply Z.ltb_ge; lia).
      cbn [_inventory]. rewrite Hinv.
      apply (alter_addAmount_back _ _ _ s Hi). by rewrite Hsum, Hback.
Qed.

(** X10.  When the amounts of the inventory are integers whose magnitudes
    add up to at most 2^53, a [removeItem] of [n] units at a stack [s]
    takes [removed_units s n] units out of [getTotalItemAmount] and out of
    [getItemAmount] of the stack's key, and changes [getItemAmount] of no
    other key.  For a stack of at least one unit that is the smaller of [n]
    and the stack's amount: asking for more than is there removes only what
    is there. *)
Theorem removeItem_amounts itemIdx amount i s n w :
  number_is itemIdx (Z.of_nat i) ->
  _inventory w !! i = Some s ->
  number_is amount n -> 0 < n ->
  within_safe_range (_inventory w) 0 ->
  exists w',
    removeItem itemIdx amount w = (true, w') /\
    (exists t,
        fst (getTotalItemAmount w) = Fin t /\
        fst (getTotalItemAmount w') = Fin (t - removed_units s n)) /\
    (exists a,
        fst (getItemAmount (Stack.key s) w) = Fin a /\
        fst (getItemAmount (Stack.key s) w') = Fin (a - removed_units s n)) /\
    (forall k', k' <> Stack.key s ->
                fst (getItemAmount k' w') = fst (getItemAmount k' w)) /\
    (1 <= value (Stack.amount s) ->
     removed_units s n = Z.min n (value (Stack.amount s))).
Proof.
  intros Hidx Hi Hn Hpos Hsafe.
  assert (Hg : Number_isInteger amount && (0 <? integerValue amount) = true)
    by (apply amount_guard; eauto).
  apply number_is_spec in Hn as [_ Hv].
  eexists. split; [apply (removeItem_success _ _ _ _ _ Hidx Hi Hg)|].
  rewrite Hv. unfold getTotalItemAmount, getItemAmount.
  destruct (safe_amount _ _ _ Hsafe (list_elem_of_lookup_2 _ _ _ Hi))
    as (a & Ha & Hbound).
  assert (Hself : keyIs (Stack.key s) s = true) by (by apply keyIs_true).
  change (Stack.amount (addAmount (- n) s))
    with (num_add (Stack.amount s) (Fin (- n))).
  rewrite Ha.
  assert (Hunits : removed_units s n = if a - n <? 1 then a else n)
    by (unfold removed_units; rewrite Ha; reflexivity).
  rewrite Hunits.
  split; [|split; [|split]]; cycle 3.
  { intros Hs. rewrite <- Hunits, <- Ha.
    apply removed_units_min; [by rewrite Ha | exact Hpos]. }
  all: destruct (a - n <? 1) eqn:E.
  all: try (apply Z.ltb_lt in E;
            rewrite (num_add_lt_1 a (- n)) by lia;
            pose proof (within_safe_range_delete _ i _ Hsafe) as Hsafe').
  all: try (apply Z.ltb_ge in E;
            destruct (within_safe_range_alter _ i s a (- n) 0 0 Hi Ha Hsafe)
              as [Hsum Hsafe']; [lia | lia |];
            rewrite Hsum;
            assert (num_ltb (Fin (a + - n)) (Fin 1) = false) as ->
              by (apply Z.ltb_ge; lia)).
  all: cbn [fst _inventory].
  - rewrite (safe_total _ _ Hsafe'), (safe_total _ _ Hsafe) by lia.
    eexists. split; [reflexivity|]. f_equal.
    rewrite (sum_fold_delete _ _ _ _ Hi), Ha. reflexivity.
  - rewrite (safe_total _ _ Hsafe'), (safe_total _ _ Hsafe) by lia.
    eexists. split; [reflexivity|]. f_equal.
    rewrite (sum_fold_alter (fun item => value (Stack.amount item))
               _ _ _ _ Hi).
    unfold addAmount. cbn [Stack.amount]. rewrite Ha, Hsum. simpl. lia.
  - rewrite (safe_sum _ _ _ Hsafe'), (safe_sum _ _ _ Hsafe) by lia.
    eexists. split; [reflexivity|]. f_equal.
    rewrite (sum_fold_delete _ _ _ _ Hi), Hself, Ha. reflexivity.
  - rewrite (safe_sum _ _ _ Hsafe'), (safe_sum _ _ _ Hsafe) by lia.
    eexists. split; [reflexivity|]. f_equal.
    rewrite
      (sum_fold_alter
         (fun item =>
            if keyIs (Stack.key s) item then value (Stack.amount item)
            else 0) _ _ _ _ Hi).
    change (keyIs (Stack.key s) (addAmount (- n) s))
      with (keyIs (Stack.key s) s).
    rewrite Hself. unfold addAmount. cbn [Stack.amount].
    rewrite Ha, Hsum. simpl. lia.
  - intros k' Hk'. apply (num_fold_delete _ _ _ _ Hi).
    by rewrite (proj2 (keyIs_false k' s)) by congruence.
  - intros k' Hk'. apply (num_fold_alter _ _ _ _ _ _ Hi).
    change (keyIs k' (addAmount (- n) s)) with (keyIs k' s).
    by rewrite (proj2 (keyIs_false k' s)) by congruence.
Qed.

(** X11.  [removeItem] returns true exactly when the index is an integer
    inside the array and the amount (1 when left out) is a positive
    integer. *)
Theorem removeItem_succeeds_iff itemIdx amount w :
  fst (removeItem itemIdx amount w) = true <->
  (exists i, number_is itemIdx (Z.of_nat i) /\
             (i < length (_inventory w))%nat) /\
  (exists n, number_is (default_amount amount) n /\ 0 < n).
Proof.
  split.
  - intros Htrue.
    destruct (removeItem_cases itemIdx amount w)
      as [E|(i & s & Hidx & Hi & Hg)];
      [rewrite E in Htrue; discriminate|].
    split.
    + exists i. split; [exact Hidx|]. eapply lookup_lt_Some; eauto.
    + by apply amount_guard.
  - intros [(i & Hidx & Hlt) Hn].
    apply lookup_lt_is_Some_2 in Hlt as [s Hi].
    apply amount_guard in Hn.
    assert (removeItem itemIdx amount w =
            removeItem itemIdx (default_amount amount) w)
      as -> by (destruct amount; reflexivity).
    rewrite (removeItem_success _ _ _ _ _ Hidx Hi Hn). reflexivity.
Qed.

(** X12.  [useItem] returns true exactly when the index is an integer
    inside the array, whatever the registry holds. *)
Theorem useItem_succeeds_iff itemIdx w :
  fst (useItem itemIdx w) = true <->
  exists i, number_is itemIdx (Z.of_nat i) /\
            (i < length (_inventory w))%nat.
Proof.
  split.
  - intros Htrue.
    destruct (useItem_cases inventoryScript itemIdx w)
      as [E|(i & s & Hidx & Hi)];
      [rewrite E in Htrue; discriminate|].
    exists i. split; [exact Hidx|]. eapply lookup_lt_Some; eauto.
  - intros (i & Hidx & Hlt).
    apply lookup_lt_is_Some_2 in Hlt as [s Hi].
    rewrite (useItem_success _ _ _ _ _ Hidx Hi). reflexivity.
Qed.

(** X13.  A call that does not return true changes nothing: when
    [giveItem], [useItem], [removeItem] or [setInventory] returns false or
    throws, the inventory and the emitted events are what they were. *)
Theorem failed_call_changes_nothing c w r w' :
  call isEqual inventoryScript c w = (r, w') ->
  r <> Return true ->
  w' = w.
Proof.
  intros Hcall Hr. destruct c as [k a d|i|i a|[arr|v]]; simpl in Hcall.
  - destruct (giveItem_cases isEqual inventoryScript k a d w)
      as [(e & _ & He)|[He|[Hh Hg]]].
    + rewrite He in Hcall. by injection Hcall as _ <-.
    + rewrite He in Hcall. by injection Hcall as _ <-.
    + rewrite (giveItem_success _ _ _ _ _ _ Hh Hg) in Hcall.
      injection Hcall as <- _. contradiction.
  - unfold bind, ret in Hcall.
    destruct (useItem_cases inventoryScript i w) as [E|(n & s & Hidx & Hi)].
    + rewrite E in Hcall. by injection Hcall as _ <-.
    + rewrite (useItem_success _ _ _ _ _ Hidx Hi) in Hcall.
      injection Hcall as <- _. contradiction.
  - unfold bind, ret in Hcall.
    destruct (removeItem_cases i a w) as [E|(n & s & Hidx & Hi & Hg)].
    + rewrite E in Hcall. by injection Hcall as _ <-.
    + assert (removeItem i a w = removeItem i (default_amount a) w)
        as E by (destruct a; reflexivity).
      rewrite E, (removeItem_success _ _ _ _ _ Hidx Hi Hg) in Hcall.
      injection Hcall as <- _. contradiction.
  - injection Hcall as <- _. contradiction.
  - by injection Hcall as _ <-.
Qed.

End Removing.

(** ** Inventories without duplicate stacks *)

Section UniqueInventories.

Variable isEqual : jsval -> jsval -> bool.
Variable inventoryScript : InventoryScript.

(** Structural equality relates every value to itself, and does not depend
    on the order of its arguments. *)
Hypothesis isEqual_refl : forall d, isEqual d d = true.
Hypothesis isEqual_sym : forall a b, isEqual a b = isEqual b a.

Local Abbreviation giveItem := (giveItem isEqual inventoryScript).
Local Abbreviation useItem := (useItem inventoryScript).

Lemma unique_stacks_delete arr i :
  unique_stacks isEqual arr -> unique_stacks isEqual (delete i arr).
Proof.
  intros Huniq j1 j2 s1 s2 Hne H1 H2.
  assert (Hshift : forall j s, delete i arr !! j = Some s ->
            exists j', arr !! j' = Some s /\
                       j' = if decide (j < i)%nat then j else S j).
  { intros j s Hj. destruct (decide (j < i)%nat) as [Hlt|Hge].
    - rewrite list_lookup_delete_lt in Hj by exact Hlt. eauto.
    - rewrite list_lookup_delete_ge in Hj by lia. eauto. }
  destruct (Hshift _ _ H1) as (k1 & Hk1 & E1).
  destruct (Hshift _ _ H2) as (k2 & Hk2 & E2).
  apply (Huniq k1 k2 s1 s2); [|exact Hk1|exact Hk2].
  subst k1 k2. destruct (decide (j1 < i)%nat), (decide (j2 < i)%nat); lia.
Qed.

Lemma giveItem_unique itemKey amount data w :
  unique_stacks isEqual (_inventory w) ->
  unique_stacks isEqual (_inventory (snd (giveItem itemKey amount data w))).
Proof.
  intros Huniq.
  destruct (giveItem_cases isEqual inventoryScript itemKey amount data w)
    as [(e & _ & ->)|[->|[Hh Hg]]]; [exact Huniq..|].
  pose proof (giveItem_success isEqual _ _ _ data w Hh Hg) as Hgive.
  rewrite Hgive.
  destruct (giveItem_true _ _ _ _ _ _ _ Hgive)
    as (_ & _ & _ & [[E Hinv]|(i & s & _ & _ & _ & Hinv)]);
    simpl in Hinv |- *; rewrite Hinv.
  - apply unique_stacks_snoc; [exact isEqual_sym| |exact Huniq].
    by apply findIndex_none.
  - apply (unique_stacks_key_data isEqual (_inventory w)); [|exact Huniq].
    symmetry. apply map_key_data_alter.
Qed.

Lemma removeItem_unique itemIdx amount w :
  unique_stacks isEqual (_inventory w) ->
  unique_stacks isEqual (_inventory (snd (removeItem itemIdx amount w))).
Proof.
  intros Huniq.
  destruct (removeItem_cases itemIdx amount w)
    as [->|(i & s & Hidx & Hi & Hg)]; [exact Huniq|].
  assert (removeItem itemIdx amount w =
          removeItem itemIdx (default_amount amount) w)
    as -> by (destruct amount; reflexivity).
  rewrite (removeItem_success _ _ _ _ _ Hidx Hi Hg).
  destruct (num_ltb _ _); simpl.
  - by apply unique_stacks_delete.
  - apply (unique_stacks_key_data isEqual (_inventory w)); [|exact Huniq].
    symmetry. apply map_key_data_alter.
Qed.

Lemma call_unique c w :
  hooks_preserve (unique_stacks isEqual) inventoryScript ->
  unique_argument isEqual c ->
  unique_stacks isEqual (_inventory w) ->
  unique_stacks isEqual
    (_inventory (snd (call isEqual inventoryScript c w))).
Proof.
  intros Hhooks Hc Hinv. destruct c as [k a d|i|i a|[arr|v]]; simpl.
  - by apply giveItem_unique.
  - unfold bind, ret.
    pose proof (useItem_preserves inventoryScript _ i w Hhooks Hinv) as H.
    by destruct (useItem i w).
  - unfold bind, ret.
    pose proof (removeItem_unique i a w Hinv) as H.
    by destruct (removeItem i a w).
  - exact Hc.
  - exact Hinv.
Qed.

End UniqueInventories.

Section UniqueInventoryProperties.

Variable isEqual : jsval -> jsval -> bool.
Variable inventoryScript : InventoryScript.

(** Structural equality relates every value to itself, and does not depend
    on the order of its arguments. *)
Hypothesis isEqual_refl : forall d, isEqual d d = true.
Hypothesis isEqual_sym : forall a b, isEqual a b = isEqual b a.

(** X14.  Starting from the empty inventory of [playerJoin], after any
    sequence of [giveItem], [useItem], [removeItem] and [setInventory] calls
    no two stacks have the same key and equal data, provided that the
    arrays handed to [setInventory] have no such two stacks and that the
    registered [onUse] functions keep this property. *)
Theorem stacks_stay_unique calls actor log :
  hooks_preserve (unique_stacks isEqual) inventoryScript ->
  Forall (unique_argument isEqual) calls ->
  unique_stacks isEqual
    (_inventory (run isEqual inventoryScript calls (playerJoin actor log))).
Proof.
  intros Hhooks Hcalls. unfold run.
  assert (Hstart : unique_stacks isEqual
                     (_inventory (playerJoin actor log))).
  { intros i j si sj _ Hi. discriminate. }
  revert Hstart. generalize (playerJoin actor log).
  induction Hcalls as [|c calls Hc _ IH]; intros w Hw; simpl.
  - exact Hw.
  - apply IH. by apply call_unique.
Qed.

(** X15.  In an inventory without duplicate stacks every stack answers for
    its own key and data: [getItemIndexWithData] of the key and data of the
    stack at index [i] is [i], and [getItemAmountWithData] of them is that
    stack's amount (added to 0, which gives every double back). *)
Theorem unique_stack_is_found i s w :
  unique_stacks isEqual (_inventory w) ->
  _inventory w !! i = Some s ->
  fst (getItemIndexWithData isEqual (Stack.key s) (Stack.data s) w)
    = Z.of_nat i /\
  fst (getItemAmountWithData isEqual (Stack.key s) (Stack.data s) w)
    = num_add (Fin 0) (Stack.amount s) /\
  (is_double (Stack.amount s) ->
   fst (getItemAmountWithData isEqual (Stack.key s) (Stack.data s) w)
     = Stack.amount s).
Proof.
  intros Huniq Hi.
  assert (Hself : keyDataIs isEqual (Stack.key s) (Stack.data s) s = true).
  { unfold keyDataIs. rewrite bool_decide_eq_true_2 by reflexivity.
    apply isEqual_refl. }
  assert (Hother : forall j sj, j <> i -> _inventory w !! j = Some sj ->
            keyDataIs isEqual (Stack.key s) (Stack.data s) sj = false).
  { intros j sj Hne Hj.
    destruct (keyDataIs isEqual (Stack.key s) (Stack.data s) sj) eqn:E;
      [|reflexivity].
    exfalso. apply (Huniq j i sj s Hne Hj Hi).
    unfold keyDataIs in E. apply andb_true_iff in E as [Hk Hd].
    apply bool_decide_eq_true in Hk. split; assumption. }
  assert (Hamount :
    fst (getItemAmountWithData isEqual (Stack.key s) (Stack.data s) w)
    = num_add (Fin 0) (Stack.amount s)).
  { unfold getItemAmountWithData. cbn [fst].
    rewrite <- (take_drop_middle _ _ _ Hi) at 1.
    rewrite fold_left_app. cbn [fold_left]. rewrite Hself.
    rewrite (num_fold_zero _ (take i (_inventory w))); [|..|reflexivity].
    - apply num_fold_zero; [|apply num_add_is_double].
      intros x Hx. apply list_elem_of_lookup_1 in Hx as [j Hj].
      rewrite lookup_drop in Hj.
      rewrite (Hother (S i + j)%nat x); [reflexivity | lia | exact Hj].
    - intros x Hx. apply elem_of_take in Hx as (j & Hj & Hlt).
      rewrite (Hother j x); [reflexivity | lia | exact Hj]. }
  unfold getItemIndexWithData. cbn [fst]. split; [|split].
  - apply (findIndex_found _ _ _ s Hi Hself).
    intros j y Hj Hy. apply (Hother j y); [lia | exact Hy].
  - exact Hamount.
  - intros Hd. rewrite Hamount. by apply num_add_0_l.
Qed.

(** X16.  The hook runs before the event: when the definition of a stack's
    key has the [onUse] function [consume], [useItem] at that stack gives,
    apart from its own [itemUsed] event emitted last, exactly what
    [removeItem] of one unit at that index gives, so the [itemRemoved] event
    precedes [itemUsed]. *)
Theorem useItem_consume itemIdx i s def w :
  number_is itemIdx (Z.of_nat i) ->
  _inventory w !! i = Some s ->
  getItem inventoryScript (Stack.key s) = Some def ->
  ItemDef.onUse def = Some consume ->
  exists w1 w2,
    removeItem itemIdx (JInt 1) w = (true, w1) /\
    useItem inventoryScript itemIdx w = (true, w2) /\
    _inventory w2 = _inventory w1 /\
    emitted w2 =
      emitted w1
        ++ [itemUsed (actor w) (Z.of_nat i) (Stack.key s) (Stack.data s)] /\
    exists rest,
      emitted w1 =
        emitted w
          ++ itemRemoved (actor w) (Z.of_nat i) (Stack.key s) 1
               (Stack.data s) :: rest.
Proof.
  intros Hidx Hi Hdef Hhook.
  pose proof (removeItem_success itemIdx (JInt 1) i s w Hidx Hi eq_refl)
    as Hremove.
  pose proof (removeItem_success (JInt (Z.of_nat i)) (JInt 1) i s w
                (number_is_JInt _) Hi eq_refl) as Hremove'.
  eexists _, _. split; [exact Hremove|].
  split; [apply (useItem_success _ _ _ _ _ Hidx Hi)|].
  unfold run_onUse. rewrite Hdef, Hhook. unfold consume.
  rewrite Hremove'. simpl.
  split; [reflexivity|]. split; [reflexivity|].
  destruct (num_ltb _ _); simpl.
  - eexists. reflexivity.
  - exists []. reflexivity.
Qed.

End UniqueInventoryProperties.

(** ** The registry, continued *)

(** The two ways an [addItem] call can end. *)
Lemma addItem_cases key name description onUse nameFunc descFunc self log :
  (exists r,
      addItem key name description onUse nameFunc descFunc self log =
        (r, self, log) /\
      (r = Return None \/ exists e, r = Throw e)) \/
  (exists k n d,
      key = JStr k /\ name = JStr n /\ description = JStr d /\
      k <> "" /\ n <> "" /\ hasItem self k = Return false /\
      addItem key name description onUse nameFunc descFunc self log =
        (Return (Some (ItemDef.mk n d onUse nameFunc descFunc)),
         set_item k (ItemDef.mk n d onUse nameFunc descFunc) self,
         log ++ [itemDefined k n d])).
Proof.
  destruct key as [| | | | | |k| |];
    try (left; eexists; split; [reflexivity | by left]).
  destruct (decide (k = "")) as [->|Hk];
    [left; eexists; split; [reflexivity | by left]|].
  destruct name as [| | | | | |n| |];
    try (left; eexists; split;
         [apply addItem_rejects; right; right; left;
          intros (? & ? & _); discriminate | by left]).
  destruct (decide (n = "")) as [->|Hn].
  { left. eexists. split; [|by left].
    apply addItem_rejects. right. right. left.
    intros (n & [= <-] & Hn). by apply Hn. }
  destruct description as [| | | | | |d| |];
    try (left; eexists; split;
         [apply addItem_rejects; right; right; right;
          intros (? & ?); discriminate | by left]).
  destruct (hasItem self k) as [[|]|e] eqn:Hh.
  - left. eexists. split; [|by left].
    apply addItem_rejects. left. eauto.
  - right. exists k, n, d. repeat split; try assumption.
    by apply addItem_success.
  - left. exists (Throw e). split; [|right; eauto].
    unfold addItem.
    destruct (String.length k <? 1)%nat eqn:Ek;
      [apply length_lt_1 in Ek; contradiction|].
    destruct (String.length n <? 1)%nat eqn:En;
      [apply length_lt_1 in En; contradiction|].
    rewrite Hh. reflexivity.
Qed.

(** X17.  Whatever its arguments, an [addItem] call that returns null or
    throws leaves the registry and the emitted events unchanged; and one
    that returns a definition was given a non-empty string as key, a
    non-empty string as name and a string as description, with the key not
    registered: the definition has exactly the given fields, is stored
    under the key, and one [itemDefined] event with (key, name,
    description) is emitted. *)
Theorem addItem_outcomes key name description onUse nameFunc descFunc
    self log r self' log' :
  addItem key name description onUse nameFunc descFunc self log =
    (r, self', log') ->
  (r = Return None \/ (exists e, r = Throw e) -> self' = self /\ log' = log)
  /\
  (forall def,
      r = Return (Some def) ->
      exists k n d,
        key = JStr k /\ name = JStr n /\ description = JStr d /\
        k <> "" /\ n <> "" /\ hasItem self k = Return false /\
        def = ItemDef.mk n d onUse nameFunc descFunc /\
        self' = set_item k def self /\
        log' = log ++ [itemDefined k n d]).
Proof.
  intros Hadd.
  destruct (addItem_cases key name description onUse nameFunc descFunc
              self log)
    as [(r0 & E & Hr0)|(k & n & d & Hk & Hn & Hd & Hk' & Hn' & Hh & E)];
    rewrite E in Hadd; injection Hadd as <- <- <-.
  - split; [by intros _|].
    intros def ->. destruct Hr0 as [?|[e ?]]; discriminate.
  - split.
    + intros [?|[e ?]]; discriminate.
    + intros def [= <-]. exists k, n, d. repeat split; assumption.
Qed.

Lemma register_cases r state :
  register r state = state \/
  exists k n d,
    reg_key r = JStr k /\ reg_name r = JStr n /\
    reg_description r = JStr d /\
    k <> "" /\ n <> "" /\ hasItem (fst state) k = Return false /\
    register r state =
      (set_item k
         (ItemDef.mk n d (reg_onUse r) (reg_nameFunc r) (reg_descFunc r))
         (fst state),
       snd state ++ [itemDefined k n d]).
Proof.
  destruct state as [self log]. unfold register. simpl.
  destruct (addItem_cases (reg_key r) (reg_name r) (reg_description r)
              (reg_onUse r) (reg_nameFunc r) (reg_descFunc r) self log)
    as [(res & -> & _)|(k & n & d & Hk & Hn & Hd & Hk' & Hn' & Hh & ->)].
  - by left.
  - right. exists k, n, d. repeat split; assumption.
Qed.

Lemma own_property_set_item key def self k' :
  own_property (set_item key def self) k' =
  if decide (key = "__proto__") then own_property self k'
  else if decide (k' = key) then Some def
  else own_property self k'.
Proof.
  unfold own_property, set_item.
  destruct (decide (key = "__proto__")) as [->|Hne]; simpl; [reflexivity|].
  destruct (decide (k' = "__proto__")) as [->|Hne'].
  - rewrite decide_False by congruence. reflexivity.
  - destruct (decide (k' = key)) as [->|Hkk].
    + apply lookup_insert_eq.
    + apply lookup_insert_ne. congruence.
Qed.

Lemma hasItem_false_own self key :
  hasItem self key = Return false -> own_property self key = None.
Proof.
  intros [_ Hb]%hasItem_Return. symmetry in Hb.
  apply bool_decide_eq_false in Hb. by apply eq_None_not_Some.
Qed.

Lemma register_keeps_definitions r state key def :
  own_property (fst state) key = Some def ->
  own_property (fst (register r state)) key = Some def.
Proof.
  intros Hdef.
  destruct (register_cases r state)
    as [->|(k & n & d & _ & _ & _ & _ & _ & Hh & ->)]; [exact Hdef|].
  simpl. rewrite own_property_set_item.
  destruct (decide (k = "__proto__")); [exact Hdef|].
  destruct (decide (key = k)) as [->|]; [|exact Hdef].
  apply hasItem_false_own in Hh. congruence.
Qed.

(** X18.  Definitions are permanent: a definition stored under a key is
    still stored under that key, unchanged, after any further sequence of
    [addItem] calls, whatever their arguments. *)
Theorem definitions_are_permanent rs state key def :
  own_property (fst state) key = Some def ->
  own_property (fst (register_all rs state)) key = Some def.
Proof.
  revert state. unfold register_all.
  induction rs as [|r rs IH]; intros state Hdef; simpl; [exact Hdef|].
  apply IH. by apply register_keeps_definitions.
Qed.

(** X19.  Whatever sequence of [addItem] calls is made on a new registry,
    every stored definition sits under a non-empty key, has a non-empty
    name, and was announced: the log holds an [itemDefined] event with its
    key, name and description. *)
Theorem stored_definitions_are_named_and_announced rs self log :
  register_all rs (newInventoryScript, []) = (self, log) ->
  named_definitions self /\
  forall key def,
    own_property self key = Some def ->
    (key, ItemDef.name def, ItemDef.description def) ∈ defined_items log.
Proof.
  assert (Hgen : forall rs state,
    (named_definitions (fst state) /\
     forall key def,
       own_property (fst state) key = Some def ->
       (key, ItemDef.name def, ItemDef.description def)
         ∈ defined_items (snd state)) ->
    named_definitions (fst (register_all rs state)) /\
    forall key def,
      own_property (fst (register_all rs state)) key = Some def ->
      (key, ItemDef.name def, ItemDef.description def)
        ∈ defined_items (snd (register_all rs state))).
  { clear. unfold register_all.
    induction rs as [|r rs IH]; intros state Hinv; simpl; [exact Hinv|].
    apply IH. destruct Hinv as [Hnamed Hann].
    destruct (register_cases r state)
      as [->|(k & n & d & _ & _ & _ & Hk & Hn & _ & ->)];
      [by split|].
    simpl. split.
    - intros key def. rewrite own_property_set_item.
      destruct (decide (k = "__proto__")); [apply Hnamed|].
      destruct (decide (key = k)) as [->|]; [|apply Hnamed].
      intros [= <-]. by split.
    - intros key def. rewrite own_property_set_item.
      unfold defined_items. rewrite omap_app. simpl.
      intros Hdef. apply elem_of_app.
      destruct (decide (k = "__proto__")); [left; by apply Hann|].
      destruct (decide (key = k)) as [->|]; [|left; by apply Hann].
      injection Hdef as <-. right. simpl. left. }
  intros Hrun.
  specialize (Hgen rs (newInventoryScript, [])). rewrite Hrun in Hgen.
  apply Hgen. split.
  - intros key def Hdef. unfold own_property in Hdef. simpl in Hdef.
    destruct (decide (key = "__proto__")); [discriminate|].
    rewrite lookup_empty in Hdef. discriminate.
  - intros key def Hdef. unfold own_property in Hdef. simpl in Hdef.
    destruct (decide (key = "__proto__")); [discriminate|].
    rewrite lookup_empty in Hdef. discriminate.
Qed.

(** X20.  Register, then display: after an [addItem] that stores a
    definition under a key other than "__proto__" and "hasOwnProperty", the
    key is registered, [getItem] returns the definition, and [getItemName]
    and [getItemDescription] give the registered name and description, or
    the result of [nameFunc] and [descFunc] on the data when these were
    given. *)
Theorem addItem_then_display k n d onUse nameFunc descFunc self log data :
  k <> "" -> n <> "" -> hasItem self k = Return false ->
  k <> "__proto__" -> k <> "hasOwnProperty" ->
  exists def self1 log1,
    addItem (JStr k) (JStr n) (JStr d) onUse nameFunc descFunc self log =
      (Return (Some def), self1, log1) /\
    hasItem self1 k = Return true /\
    getItem self1 k = Some def /\
    getItemName self1 k data =
      Return (match nameFunc with
              | Some f => f data
              | None => JStr n
              end) /\
    getItemDescription self1 k data =
      Return (match descFunc with
              | Some f => f data
              | None => JStr d
              end).
Proof.
  intros Hk Hn Hfresh Hproto Hshadow.
  eexists _, _, _. split; [by apply addItem_success|].
  assert (Hh : hasItem
                 (set_item k (ItemDef.mk n d onUse nameFunc descFunc) self) k
               = Return true).
  { apply hasItem_Return in Hfresh as [Hmethod _].
    unfold hasItem. rewrite !own_property_set_item.
    rewrite !decide_False by (try exact Hproto; congruence).
    rewrite decide_True by reflexivity.
    rewrite Hmethod, bool_decide_eq_true_2 by eauto. reflexivity. }
  split; [exact Hh|]. split; [apply getItem_set_item|].
  unfold getItemName, getItemDescription.
  rewrite Hh, getItem_set_item. simpl.
  destruct nameFunc, descFunc; split; reflexivity.
Qed.

(** X21.  Registering a key leaves the other keys alone: after an [addItem]
    that stores a definition under [k], every other key has the own
    definition it had, if any.  Unless [k] is "hasOwnProperty" (after which
    [hasItem] throws), [hasItem], [getItemName] and [getItemDescription]
    answer for every other key what they answered before.  Unless [k] is
    "__proto__" (the definition then becomes the prototype of [_items],
    where a lookup of another key finds its fields), [getItem] of every
    other key is what it was. *)
Theorem addItem_other_keys k n d onUse nameFunc descFunc self log k' :
  k <> "" -> n <> "" -> hasItem self k = Return false ->
  k' <> k ->
  exists def self1 log1,
    addItem (JStr k) (JStr n) (JStr d) onUse nameFunc descFunc self log =
      (Return (Some def), self1, log1) /\
    own_property self1 k' = own_property self k' /\
    (k <> "hasOwnProperty" ->
     hasItem self1 k' = hasItem self k' /\
     forall data,
       getItemName self1 k' data = getItemName self k' data /\
       getItemDescription self1 k' data = getItemDescription self k' data) /\
    (k <> "__proto__" -> getItem self1 k' = getItem self k').
Proof.
  intros Hk Hn Hfresh Hne.
  eexists _, _, _. split; [by apply addItem_success|].
  assert (Hown : forall key, key <> k ->
            own_property
              (set_item k (ItemDef.mk n d onUse nameFunc descFunc) self) key
            = own_property self key).
  { intros key Hkey. rewrite own_property_set_item.
    destruct (decide (k = "__proto__")); [reflexivity|].
    rewrite decide_False by exact Hkey. reflexivity. }
  assert (Hget : getItem
                   (set_item k (ItemDef.mk n d onUse nameFunc descFunc) self)
                   k'
                 = getItem self k').
  { unfold getItem. rewrite (Hown k' Hne).
    destruct (own_property self k'); [reflexivity|].
    destruct (decide (k' = "__proto__")) as [->|]; [|reflexivity].
    unfold set_item. rewrite decide_False by congruence. reflexivity. }
  split; [exact (Hown k' Hne)|]. split; [|intros _; exact Hget].
  intros Hshadow.
  assert (Hhas : hasItem
                   (set_item k (ItemDef.mk n d onUse nameFunc descFunc) self)
                   k'
                 = hasItem self k').
  { unfold hasItem. rewrite (Hown "hasOwnProperty") by congruence.
    rewrite (Hown k' Hne). reflexivity. }
  split; [exact Hhas|].
  intros data. unfold getItemName, getItemDescription.
  rewrite Hhas, Hget. split; reflexivity.
Qed.

(** X24.  What [getItemName] and [getItemDescription] display is decided
    by the own properties of [_items]: as long as no item has the key
    "hasOwnProperty", a key without own property gets "Invalid Item" and the
    empty string, and a key with one gets the name and description of
    exactly the stored definition, or what its [nameFunc] and [descFunc]
    make of the data. *)
Theorem display_of_stored_definition self key data :
  own_property self "hasOwnProperty" = None ->
  (own_property self key = None ->
   getItemName self key data = Return (JStr "Invalid Item") /\
   getItemDescription self key data = Return (JStr "")) /\
  (forall def,
      own_property self key = Some def ->
      getItemName self key data =
        Return (match ItemDef.nameFunc def with
                | Some f => f data
                | None => JStr (ItemDef.name def)
                end) /\
      getItemDescription self key data =
        Return (match ItemDef.descFunc def with
                | Some f => f data
                | None => JStr (ItemDef.description def)
                end)).
Proof.
  intros Hmethod. unfold getItemName, getItemDescription, hasItem, getItem.
  rewrite Hmethod. split.
  - intros ->. rewrite bool_decide_eq_false_2 by (intros [? ?]; discriminate).
    split; reflexivity.
  - intros def ->. rewrite bool_decide_eq_true_2 by eauto.
    destruct (ItemDef.nameFunc def), (ItemDef.descFunc def);
      split; reflexivity.
Qed.

(** ** Events and sizes *)

Section Announcements.

Variable isEqual : jsval -> jsval -> bool.
Variable inventoryScript : InventoryScript.

(** X22.  No silent change: every call that returns true is announced by
    the event of its kind, with the arguments of the call.  A [giveItem]
    appends [itemAdded] and nothing else, and the number of stacks stays or
    grows by one.  A [removeItem] appends [itemRemoved] and nothing else
    when the stack stays, with its amount reduced, and [itemRemoved]
    followed by [itemRemovedCompletely] exactly when the stack is taken
    out.  A [setInventory] appends [inventoryReplaced] with the old and the
    new array and nothing else.  The last event of a [useItem] is
    [itemUsed] for the stack at the index. *)
Theorem successful_call_is_announced c w w' :
  call isEqual inventoryScript c w = (Return true, w') ->
  match c with
  | CallGiveItem itemKey amount data =>
      actor w' = actor w /\
      emitted w' =
        emitted w
          ++ [itemAdded (actor w) itemKey (integerValue amount) data] /\
      (length (_inventory w) <= length (_inventory w')
       <= S (length (_inventory w)))%nat
  | CallUseItem itemIdx =>
      exists i s,
        number_is itemIdx (Z.of_nat i) /\ _inventory w !! i = Some s /\
        last (emitted w') =
          Some (itemUsed (actor w) (Z.of_nat i) (Stack.key s) (Stack.data s))
  | CallRemoveItem itemIdx amount =>
      actor w' = actor w /\
      exists i s,
        number_is itemIdx (Z.of_nat i) /\ _inventory w !! i = Some s /\
        ((_inventory w' =
            alter (addAmount (- integerValue (default_amount amount))) i
              (_inventory w) /\
          emitted w' =
            emitted w
              ++ [itemRemoved (actor w) (Z.of_nat i) (Stack.key s)
                    (integerValue (default_amount amount)) (Stack.data s)])
         \/
         (_inventory w' = delete i (_inventory w) /\
          emitted w' =
            emitted w
              ++ [itemRemoved (actor w) (Z.of_nat i) (Stack.key s)
                    (integerValue (default_amount amount)) (Stack.data s);
                  itemRemovedCompletely (actor w) (Stack.key s)
                    (Stack.data s)]))
  | CallSetInventory newInventory =>
      actor w' = actor w /\
      newInventory = IsArray (_inventory w') /\
      emitted w' =
        emitted w
          ++ [inventoryReplaced (actor w) (_inventory w) (_inventory w')]
  end.
Proof.
  intros Hcall. destruct c as [k a d|i|i a|[arr|v]]; simpl in Hcall.
  - destruct (giveItem_true _ _ _ _ _ _ _ Hcall)
      as (_ & Hactor & Hlog & [[_ Hinv]|(j & s & _ & _ & _ & Hinv)]);
      (split; [exact Hactor|]); (split; [exact Hlog|]); rewrite Hinv.
    + rewrite length_app. simpl. lia.
    + rewrite length_alter. lia.
  - unfold bind, ret in Hcall.
    destruct (useItem_cases inventoryScript i w) as [E|(n & s & Hidx & Hi)];
      [rewrite E in Hcall; discriminate|].
    rewrite (useItem_success _ _ _ _ _ Hidx Hi) in Hcall.
    injection Hcall as <-.
    exists n, s. split; [exact Hidx|]. split; [exact Hi|].
    cbn [emitted]. apply last_snoc.
  - unfold bind, ret in Hcall.
    destruct (removeItem_cases i a w) as [E|(n & s & Hidx & Hi & Hg)];
      [rewrite E in Hcall; discriminate|].
    assert (removeItem i a w = removeItem i (default_amount a) w)
      as E by (destruct a; reflexivity).
    rewrite E, (removeItem_success _ _ _ _ _ Hidx Hi Hg) in Hcall.
    injection Hcall as <-.
    destruct (num_ltb _ _); cbn [actor _inventory emitted].
    + split; [reflexivity|]. exists n, s.
      split; [exact Hidx|]. split; [exact Hi|]. right.
      split; reflexivity.
    + split; [reflexivity|]. exists n, s.
      split; [exact Hidx|]. split; [exact Hi|]. left.
      split; reflexivity.
  - injection Hcall as <-. cbn [actor _inventory emitted].
    split; [reflexivity|]. split; reflexivity.
  - discriminate.
Qed.

End Announcements.

(** ** The further properties on the small registry *)

Lemma two_stacks_positive : amounts_positive (_inventory two_stacks).
Proof.
  intros s Hs.
  apply elem_of_cons in Hs as [->|Hs]; [reflexivity|].
  apply elem_of_cons in Hs as [->|Hs]; [reflexivity|].
  inversion Hs.
Qed.

Lemma medkit_hooks_preserve_unique :
  hooks_preserve (unique_stacks deepEqual) medkit_registry.
Proof.
  intros key def f Hdef Hf index key' data w Hw.
  apply medkit_registry_getItem in Hdef as [_ Hc].
  rewrite Hc in Hf. injection Hf as <-.
  unfold consume. apply removeItem_unique. exact Hw.
Qed.

Lemma hasItemWithData_hasItem_witness :
  fst (playerHasItem "item_medkit" two_stacks) = true /\
  fst (getItemIndex "item_medkit" two_stacks) = 0 /\
  fst (getItemIndexWithData deepEqual "item_medkit" (JObj [("hp", JInt 30)])
         two_stacks) = 1.
Proof.
  destruct (hasItemWithData_hasItem deepEqual "item_medkit"
              (JObj [("hp", JInt 30)]) two_stacks) as (Hhas & _ & _).
  - vm_compute. reflexivity.
  - split; [exact Hhas|]. split; reflexivity.
Defined.

Lemma found_index_is_usable_witness :
  exists w1 w2,
    useItem medkit_registry (JInt 0) two_stacks = (true, w1) /\
    removeItem (JInt 0) JUndefined two_stacks = (true, w2).
Proof.
  destruct (found_index_is_usable medkit_registry "item_medkit" two_stacks)
    as (i & s & w1 & w2 & _ & _ & _ & _ & Huse & _ & Hremove).
  - vm_compute. discriminate.
  - exists w1, w2. split; [exact Huse | exact Hremove].
Defined.

Lemma amounts_ordered_witness :
  (num_le (Fin 0)
     (fst (getItemAmountWithData deepEqual "item_medkit"
             (JObj [("hp", JInt 30)]) two_stacks)) /\
   num_le
     (fst (getItemAmountWithData deepEqual "item_medkit"
             (JObj [("hp", JInt 30)]) two_stacks))
     (fst (getItemAmount "item_medkit" two_stacks))) /\
  num_le (fst (getItemAmount "item_medkit" two_stacks))
    (fst (getTotalItemAmount two_stacks)).
Proof.
  exact (amounts_ordered deepEqual "item_medkit" (JObj [("hp", JInt 30)])
           two_stacks two_stacks_positive).
Defined.

Lemma getItemAmount_zero_witness :
  fst (getItemIndex "item_unknown" two_stacks) = -1 /\
  fst (getItemAmount "item_unknown" two_stacks) = Fin 0.
Proof.
  apply (getItemAmount_zero "item_unknown" two_stacks).
  vm_compute. reflexivity.
Defined.

Lemma total_at_least_length_witness :
  num_le (Fin 2) (fst (getTotalItemAmount two_stacks)).
Proof.
  exact (proj1 (total_at_least_length two_stacks two_stacks_positive)).
Defined.

Lemma giveItem_other_keys_witness :
  exists w',
    giveItem deepEqual medkit_registry "item_medkit" (JInt 4) JNull
      (mkWorld 7 [unknown_item; plain_medkits] []) = (Return true, w') /\
    fst (getItemAmount "item_medkit" w') = Fin (2 + 4) /\
    fst (getItemAmount "item_unknown" w') = Fin 1 /\
    fst (getItemIndex "item_unknown" w') = 0.
Proof.
  destruct (giveItem deepEqual medkit_registry "item_medkit" (JInt 4) JNull
              (mkWorld 7 [unknown_item; plain_medkits] []))
    as [r w'] eqn:Hgive.
  assert (r = Return true) as -> by (vm_compute in Hgive; congruence).
  destruct (giveItem_other_keys deepEqual medkit_registry "item_medkit"
              (JInt 4) JNull _ w' Hgive) as [Hsame Hother].
  destruct Hsame as (a & Ha & Hsame).
  { split.
    - intros s Hs.
      apply elem_of_cons in Hs as [->|Hs]; [simpl; eauto|].
      apply elem_of_cons in Hs as [->|Hs]; [simpl; eauto|].
      inversion Hs.
    - vm_compute. intros H. discriminate H. }
  vm_compute in Ha. injection Ha as <-.
  destruct (Hother "item_unknown") as (Hamount & Hindex & _);
    [discriminate|].
  exists w'. split; [reflexivity|]. split; [exact Hsame|].
  split; [exact Hamount | exact Hindex].
Defined.

Lemma giveItem_twice_merges_witness :
  exists w1 w2,
    giveItem deepEqual medkit_registry "item_medkit" (JInt 4) JNull
      two_stacks = (Return true, w1) /\
    giveItem deepEqual medkit_registry "item_medkit" (JInt 1) JNull w1
      = (Return true, w2) /\
    length (_inventory w2) = length (_inventory w1) /\
    fst (getItemIndexWithData deepEqual "item_medkit" JNull w2) = 2.
Proof.
  destruct (giveItem deepEqual medkit_registry "item_medkit" (JInt 4) JNull
              two_stacks) as [r1 w1] eqn:Hgive1.
  assert (r1 = Return true) as -> by (vm_compute in Hgive1; congruence).
  destruct (giveItem deepEqual medkit_registry "item_medkit" (JInt 1) JNull
              w1) as [r2 w2] eqn:Hgive2.
  assert (r2 = Return true) as ->.
  { vm_compute in Hgive1. injection Hgive1 as <-.
    vm_compute in Hgive2. congruence. }
  destruct (giveItem_twice_merges deepEqual medkit_registry deepEqual_refl
              "item_medkit" (JInt 4) JNull two_stacks w1 Hgive1)
    as (i & Hi & _ & Hsecond).
  destruct (Hsecond (JInt 1) w2 Hgive2) as [Hlen Hidx].
  exists w1, w2. split; [reflexivity|]. split; [exact Hgive2|].
  split; [exact Hlen|]. rewrite Hidx, <- Hi.
  vm_compute in Hgive1. injection Hgive1 as <-. reflexivity.
Defined.

Lemma giveItem_distinct_data_witness :
  exists w1 w2,
    giveItem deepEqual medkit_registry "item_medkit" (JInt 2) JUndefined
      (playerJoin 7 []) = (Return true, w1) /\
    giveItem deepEqual medkit_registry "item_medkit" (JInt 3)
      (JObj [("hp", JInt 30)]) w1 = (Return true, w2) /\
    _inventory w2 = [plain_medkits; strong_medkits] /\
    fst (getItemAmount "item_medkit" w2) = Fin (2 + 3).
Proof.
  apply (giveItem_distinct_data deepEqual medkit_registry "item_medkit"
           JUndefined (JObj [("hp", JInt 30)]) (JInt 2) (JInt 3) 2 3
           (playerJoin 7 [])).
  - vm_compute. reflexivity.
  - apply number_is_JInt.
  - lia.
  - apply number_is_JInt.
  - lia.
  - unfold two53. lia.
  - reflexivity.
  - reflexivity.
Defined.

Lemma giveItem_removeItem_round_trip_witness :
  exists w1 w2,
    giveItem deepEqual medkit_registry "item_medkit" (JInt 4) JNull
      two_stacks = (Return true, w1) /\
    removeItem (JInt 2) (JInt 4) w1 = (true, w2) /\
    _inventory w2 = _inventory two_stacks.
Proof.
  destruct (giveItem deepEqual medkit_registry "item_medkit" (JInt 4) JNull
              two_stacks) as [r1 w1] eqn:Hgive.
  assert (r1 = Return true) as -> by (vm_compute in Hgive; congruence).
  destruct (giveItem_removeItem_round_trip deepEqual medkit_registry
              deepEqual_refl "item_medkit" (JInt 4) JNull two_stacks w1
              two_stacks_positive (two_stacks_safe 4 ltac:(lia)) Hgive)
    as (w2 & Hremove & Hback).
  exists w1, w2. split; [reflexivity|]. split; [|exact Hback].
  vm_compute in Hgive. injection Hgive as <-. exact Hremove.
Defined.

Lemma removeItem_amounts_witness :
  exists w',
    removeItem (JInt 0) (JInt 5) two_stacks = (true, w') /\
    fst (getTotalItemAmount w') = Fin (5 - 2) /\
    fst (getItemAmount "item_medkit" w') = Fin (5 - 2).
Proof.
  destruct (removeItem_amounts (JInt 0) (JInt 5) 0%nat plain_medkits 5
              two_stacks)
    as (w' & Hremove & (t & Ht & Htotal) & (a & Ha & Hkey) & _).
  - apply (number_is_JInt 0).
  - reflexivity.
  - apply number_is_JInt.
  - lia.
  - apply two_stacks_safe. lia.
  - vm_compute in Ht. injection Ht as <-.
    vm_compute in Ha. injection Ha as <-.
    exists w'. split; [exact Hremove|]. split; [exact Htotal | exact Hkey].
Defined.

Lemma removeItem_succeeds_iff_witness :
  fst (removeItem (JInt 1) JUndefined two_stacks) = true /\
  fst (removeItem (JInt 2) JUndefined two_stacks) <> true.
Proof.
  split.
  - apply removeItem_succeeds_iff. split.
    + exists 1%nat. split; [apply (number_is_JInt 1) | simpl; lia].
    + exists 1. split; [apply number_is_JInt | lia].
  - intros [(i & Hi & Hlt) _]%removeItem_succeeds_iff.
    assert (2 = Z.of_nat i)
      by exact (number_is_inj _ _ _ (number_is_JInt 2) Hi).
    simpl in Hlt. lia.
Defined.

Lemma useItem_succeeds_iff_witness :
  fst (useItem medkit_registry (JInt 1) two_stacks) = true /\
  fst (useItem medkit_registry (JInt (-1)) two_stacks) <> true.
Proof.
  split.
  - apply useItem_succeeds_iff.
    exists 1%nat. split; [apply (number_is_JInt 1) | simpl; lia].
  - intros (i & Hi & _)%useItem_succeeds_iff.
    assert (-1 = Z.of_nat i)
      by exact (number_is_inj _ _ _ (number_is_JInt (-1)) Hi).
    lia.
Defined.

Lemma failed_call_changes_nothing_witness :
  snd (call deepEqual shadowed_registry
         (CallGiveItem "item_medkit" (JInt 1) JUndefined) two_stacks)
    = two_stacks /\
  snd (call deepEqual medkit_registry (CallRemoveItem (JInt 1) (JInt 0))
         two_stacks) = two_stacks.
Proof.
  split.
  - apply (failed_call_changes_nothing deepEqual shadowed_registry
             (CallGiveItem "item_medkit" (JInt 1) JUndefined) two_stacks
             (Throw TypeError)); [reflexivity | discriminate].
  - apply (failed_call_changes_nothing deepEqual medkit_registry
             (CallRemoveItem (JInt 1) (JInt 0)) two_stacks (Return false));
      [reflexivity | discriminate].
Defined.

Lemma stacks_stay_unique_witness :
  unique_stacks deepEqual
    (_inventory
       (run deepEqual medkit_registry
          [CallGiveItem "item_medkit" (JInt 2) JUndefined;
           CallGiveItem "item_medkit" (JInt 2) JUndefined;
           CallUseItem (JInt 0);
           CallSetInventory (IsArray [plain_medkits; strong_medkits]);
           CallRemoveItem (JInt 1) (JInt 5)]
          (playerJoin 7 []))).
Proof.
  apply (stacks_stay_unique deepEqual medkit_registry deepEqual_sym).
  - exact medkit_hooks_preserve_unique.
  - repeat constructor. exact two_stacks_unique.
Defined.

Lemma unique_stack_is_found_witness :
  fst (getItemIndexWithData deepEqual "item_medkit" (JObj [("hp", JInt 30)])
         two_stacks) = 1 /\
  fst (getItemAmountWithData deepEqual "item_medkit"
         (JObj [("hp", JInt 30)]) two_stacks) = Fin 3.
Proof.
  destruct (unique_stack_is_found deepEqual deepEqual_refl 1%nat
              strong_medkits two_stacks two_stacks_unique eq_refl)
    as (Hindex & _ & Hamount).
  split; [exact Hindex|]. apply Hamount. reflexivity.
Defined.

Lemma useItem_consume_witness :
  exists w2,
    useItem medkit_registry (JInt 0) two_stacks = (true, w2) /\
    _inventory w2 =
      [Stack.mk "item_medkit" (Fin 1) JUndefined; strong_medkits] /\
    emitted w2 =
      [itemRemoved 7 0 "item_medkit" 1 JUndefined;
       itemUsed 7 0 "item_medkit" JUndefined].
Proof.
  destruct (useItem_consume medkit_registry (JInt 0) 0%nat plain_medkits
              (ItemDef.mk "Medkit" "Heals 10 HP" (Some consume) None None)
              two_stacks)
    as (w1 & w2 & Hremove & Huse & Hinv & Hlog & _).
  - apply (number_is_JInt 0).
  - reflexivity.
  - reflexivity.
  - reflexivity.
  - exists w2. split; [exact Huse|].
    vm_compute in Hremove. injection Hremove as <-.
    split; [exact Hinv | exact Hlog].
Defined.

Lemma definitions_are_permanent_witness :
  own_property
    (fst (register_all
            [mkRegistration (JStr "item_medkit") (JStr "Bandage") (JStr "")
               None None None;
             mkRegistration (JStr "__proto__") (JStr "Other") (JStr "")
               None None None]
            (medkit_registry, []))) "item_medkit"
  = Some (ItemDef.mk "Medkit" "Heals 10 HP" (Some consume) None None).
Proof.
  apply definitions_are_permanent. reflexivity.
Defined.

Lemma stored_definitions_are_named_and_announced_witness :
  ("item_medkit", "Medkit", "Heals 10 HP")
    ∈ defined_items [itemDefined "item_medkit" "Medkit" "Heals 10 HP"].
Proof.
  destruct (stored_definitions_are_named_and_announced
              [mkRegistration (JStr "item_medkit") (JStr "Medkit")
                 (JStr "Heals 10 HP") (Some consume) None None;
               mkRegistration (JStr "") (JStr "Nameless") (JStr "")
                 None None None]
              medkit_registry
              [itemDefined "item_medkit" "Medkit" "Heals 10 HP"])
    as [_ Hannounced].
  - reflexivity.
  - apply (Hannounced "item_medkit"
             (ItemDef.mk "Medkit" "Heals 10 HP" (Some consume) None None)).
    reflexivity.
Defined.

Lemma addItem_then_display_witness :
  exists def self1 log1,
    addItem (JStr "item_bandage") (JStr "Bandage") (JStr "Stops bleeding")
      None (Some (fun data => JArr [JStr "Bandage"; data])) None
      medkit_registry [] = (Return (Some def), self1, log1) /\
    hasItem self1 "item_bandage" = Return true /\
    getItemName self1 "item_bandage" (JInt 3) =
      Return (JArr [JStr "Bandage"; JInt 3]) /\
    getItemDescription self1 "item_bandage" (JInt 3) =
      Return (JStr "Stops bleeding").
Proof.
  destruct (addItem_then_display "item_bandage" "Bandage" "Stops bleeding"
              None (Some (fun data => JArr [JStr "Bandage"; data])) None
              medkit_registry [] (JInt 3))
    as (def & self1 & log1 & Hadd & Hhas & _ & Hname & Hdesc);
    [discriminate | discriminate | reflexivity | discriminate
    | discriminate |].
  exists def, self1, log1.
  split; [exact Hadd|]. split; [exact Hhas|].
  split; [exact Hname | exact Hdesc].
Defined.

Lemma addItem_other_keys_witness :
  exists def self1 log1,
    addItem (JStr "item_bandage") (JStr "Bandage") (JStr "") None None None
      medkit_registry [] = (Return (Some def), self1, log1) /\
    own_property self1 "item_medkit" =
      own_property medkit_registry "item_medkit" /\
    getItemName self1 "item_medkit" JNull = Return (JStr "Medkit") /\
    getItem self1 "item_medkit" = getItem medkit_registry "item_medkit" /\
    hasItem self1 "item_unknown" = Return false.
Proof.
  destruct (addItem_other_keys "item_bandage" "Bandage" "" None None None
              medkit_registry [] "item_medkit")
    as (def & self1 & log1 & Hadd & Hown & Hshow & Hget);
    [discriminate | discriminate | reflexivity | discriminate |].
  destruct (addItem_other_keys "item_bandage" "Bandage" "" None None None
              medkit_registry [] "item_unknown")
    as (def' & self1' & log1' & Hadd' & _ & Hhas & _);
    [discriminate | discriminate | reflexivity | discriminate |].
  rewrite Hadd in Hadd'. injection Hadd' as _ <- _.
  exists def, self1, log1. split; [exact Hadd|]. split; [exact Hown|].
  destruct Hshow as [_ Hname]; [discriminate|].
  destruct (Hname JNull) as [-> _].
  split; [reflexivity|]. split; [apply Hget; discriminate|].
  destruct Hhas as [-> _]; [discriminate|]. reflexivity.
Defined.

Lemma display_of_stored_definition_witness :
  getItemName medkit_registry "item_unknown" JNull =
    Return (JStr "Invalid Item") /\
  getItemDescription medkit_registry "item_unknown" JNull =
    Return (JStr "") /\
  getItemName medkit_registry "item_medkit" JNull = Return (JStr "Medkit") /\
  getItemDescription medkit_registry "item_medkit" JNull =
    Return (JStr "Heals 10 HP").
Proof.
  destruct (display_of_stored_definition medkit_registry "item_unknown"
              JNull eq_refl) as [Hunknown _].
  destruct (display_of_stored_definition medkit_registry "item_medkit"
              JNull eq_refl) as [_ Hknown].
  destruct (Hunknown eq_refl) as [Hn Hd].
  destruct (Hknown (ItemDef.mk "Medkit" "Heals 10 HP" (Some consume) None
                      None) eq_refl) as [Hn' Hd'].
  split; [exact Hn|]. split; [exact Hd|]. split; [exact Hn' | exact Hd'].
Defined.

Lemma successful_call_is_announced_witness :
  exists w',
    call deepEqual medkit_registry (CallRemoveItem (JInt 1) (JInt 3))
      two_stacks = (Return true, w') /\
    actor w' = 7%nat /\
    exists i s,
      _inventory two_stacks !! i = Some s /\
      (_inventory w' = delete i (_inventory two_stacks) ->
       emitted w' =
         [itemRemoved 7 (Z.of_nat i) (Stack.key s) 3 (Stack.data s);
          itemRemovedCompletely 7 (Stack.key s) (Stack.data s)]).
Proof.
  destruct (call deepEqual medkit_registry (CallRemoveItem (JInt 1) (JInt 3))
              two_stacks) as [r w'] eqn:Hcall.
  assert (r = Return true) as -> by (vm_compute in Hcall; congruence).
  destruct (successful_call_is_announced deepEqual medkit_registry
              (CallRemoveItem (JInt 1) (JInt 3)) two_stacks w' Hcall)
    as (Hactor & i & s & _ & Hi & Hevents).
  exists w'. split; [reflexivity|]. split; [exact Hactor|].
  exists i, s. split; [exact Hi|]. intros Hgone.
  destruct Hevents as [[Hstays _]|[_ Hlog]]; [|exact Hlog].
  exfalso. rewrite Hstays in Hgone.
  apply (f_equal length) in Hgone.
  rewrite length_alter, length_delete in Hgone by eauto.
  apply lookup_lt_Some in Hi. lia.
Defined.

Lemma addItem_outcomes_witness :
  exists k n d,
    JStr "item_medkit" = JStr k /\ JStr "Medkit" = JStr n /\
    JStr "Heals 10 HP" = JStr d /\
    medkit_registry
      = set_item k (ItemDef.mk n d (Some consume) None None)
          newInventoryScript.
Proof.
  destruct (addItem_outcomes (JStr "item_medkit") (JStr "Medkit")
              (JStr "Heals 10 HP") (Some consume) None None
              newInventoryScript []
              (Return (Some (ItemDef.mk "Medkit" "Heals 10 HP"
                               (Some consume) None None)))
              medkit_registry
              [itemDefined "item_medkit" "Medkit" "Heals 10 HP"] eq_refl)
    as [_ Hstored].
  destruct (Hstored _ eq_refl)
    as (k & n & d & Hk & Hn & Hd & _ & _ & _ & Hdef & Hself & _).
  exists k, n, d. split; [exact Hk|]. split; [exact Hn|].
  split; [exact Hd|]. rewrite <- Hdef. exact Hself.
Defined.

(** X23.  Removing the last stack of a key: when the stack at the index is
    the only one with its key and the amount removed leaves fewer than one
    unit, the player no longer has the item afterwards: the player's
    [hasItem] is false, [getItemIndex] is -1 and [getItemAmount] is 0. *)
Theorem removeItem_last_stack itemIdx amount i s n w :
  number_is itemIdx (Z.of_nat i) ->
  _inventory w !! i = Some s ->
  number_is amount n -> 0 < n ->
  num_ltb (num_add (Stack.amount s) (Fin (- n))) (Fin 1) = true ->
  (forall j sj, j <> i -> _inventory w !! j = Some sj ->
                Stack.key sj <> Stack.key s) ->
  exists w',
    removeItem itemIdx amount w = (true, w') /\
    fst (playerHasItem (Stack.key s) w') = false /\
    fst (getItemIndex (Stack.key s) w') = -1 /\
    fst (getItemAmount (Stack.key s) w') = Fin 0.
Proof.
  intros Hidx Hi Hn Hpos Hlast Honly.
  assert (Hg : Number_isInteger amount && (0 <? integerValue amount) = true)
    by (apply amount_guard; eauto).
  apply number_is_spec in Hn as [_ Hv].
  eexists. split; [apply (removeItem_success _ _ _ _ _ Hidx Hi Hg)|].
  rewrite Hv.
  change (Stack.amount (addAmount (- n) s))
    with (num_add (Stack.amount s) (Fin (- n))).
  rewrite Hlast.
  assert (Hnone : forall x, x ∈ delete i (_inventory w) ->
            keyIs (Stack.key s) x = false).
  { intros x Hx. apply keyIs_false.
    apply list_elem_of_lookup_1 in Hx as [j Hj].
    destruct (decide (j < i)%nat) as [Hlt|Hge].
    - rewrite list_lookup_delete_lt in Hj by exact Hlt.
      apply (Honly j); [lia | exact Hj].
    - rewrite list_lookup_delete_ge in Hj by lia.
      apply (Honly (S j)); [lia | exact Hj]. }
  unfold playerHasItem, getItemIndex, getItemAmount. cbn [fst _inventory].
  apply findIndex_none in Hnone as Hidx'. rewrite Hidx'.
  split; [reflexivity|]. split; [reflexivity|].
  apply num_fold_zero; [|reflexivity].
  intros x Hx. by rewrite (Hnone x Hx).
Qed.

Lemma removeItem_last_stack_witness :
  exists w',
    removeItem (JInt 0) (JInt 1) (mkWorld 7 [unknown_item; plain_medkits] [])
      = (true, w') /\
    fst (playerHasItem "item_unknown" w') = false /\
    fst (getItemAmount "item_unknown" w') = Fin 0.
Proof.
  destruct (removeItem_last_stack (JInt 0) (JInt 1) 0%nat unknown_item 1
              (mkWorld 7 [unknown_item; plain_medkits] []))
    as (w' & Hremove & Hhas & _ & Hamount).
  - apply (number_is_JInt 0).
  - reflexivity.
  - apply number_is_JInt.
  - lia.
  - reflexivity.
  - intros [|[|j]] sj Hj Hsj; simpl in Hsj; try discriminate.
    + contradiction.
    + injection Hsj as <-. discriminate.
  - exists w'. split; [exact Hremove|]. split; [exact Hhas | exact Hamount].
Defined.
